(** * PBFCM tax-sale scraper: a shallow embedding of [pbfcm_engine.py]

    The development follows the engine file top to bottom:

    - [Str]     character and string primitives of Python and JavaScript
                that the engine calls ([strip], [trim], [lower], [split], ...);
    - [Urllib]  the part of Python's [urllib.parse] the engine imports
                ([urlparse], [urljoin], [urldefrag]);
    - [Js]      the in-page script of [_extract_js], over an abstract DOM
                query interface;
    - [Engine]  the Python side of [PBFcmsScraper]: URL canonicalisation and
                duplicate removal, [_file_type], [_normalize], the browser
                lifecycle and [scrape];
    - [Spec]    the wording of the specification where it differs in form
                from the code, and [Pages], four small rendered pages.

    The properties follow, numbered C1 to C10.

    Text is modelled by [string]; a character stands for a code point
    below 256 (Latin-1), on which the character classes below agree with
    Python 3.11 and ECMAScript. *)

From Stdlib Require Import Ascii String NArith Bool Lia.
From stdpp Require Import base option list strings gmap.

#[local] Set Warnings "-clear-no-such-hyp".

Local Open Scope N_scope.

(** ** Exceptions as values *)

Inductive exn :=
| ValueError (msg : string)
| AssertionError (msg : string).

Inductive result (A : Type) :=
| Ok (a : A)
| Raise (e : exn).
Arguments Ok {A} a.
Arguments Raise {A} e.

#[global] Instance result_ret : MRet result := fun _ a => Ok a.
#[global] Instance result_bind : MBind result := fun _ _ f m =>
  match m with Ok a => f a | Raise e => Raise e end.
#[global] Instance result_fmap : FMap result := fun _ _ f m =>
  match m with Ok a => Ok (f a) | Raise e => Raise e end.

(** [for x in l: ...] with a body that may raise. *)
Fixpoint mapM {A B} (f : A -> result B) (l : list A) : result (list B) :=
  match l with
  | [] => Ok []
  | x :: l' => y ← f x; ys ← mapM f l'; Ok (y :: ys)
  end.

(** ** Strings *)

Module Str.

Definition code (c : ascii) : N := N_of_ascii c.

Definition between (lo hi : N) (c : ascii) : bool :=
  (lo <=? code c) && (code c <=? hi).

(** Python [str.isspace] on code points below 256. *)
Definition py_isspace (c : ascii) : bool :=
  between 9 13 c || between 28 32 c || (code c =? 133) || (code c =? 160).

(** ECMAScript WhiteSpace and LineTerminator on code points below 256. *)
Definition js_isspace (c : ascii) : bool :=
  between 9 13 c || (code c =? 32) || (code c =? 160).

Definition is_upper (c : ascii) : bool := between 65 90 c.
Definition is_lower (c : ascii) : bool := between 97 122 c.
(** [c.isascii() and c.isalpha()] *)
Definition is_ascii_alpha (c : ascii) : bool := is_upper c || is_lower c.
Definition is_digit (c : ascii) : bool := between 48 57 c.

(** Python [str.lower] on one code point below 256. *)
Definition lower_char (c : ascii) : ascii :=
  if is_upper c || (between 192 222 c && negb (code c =? 215))
  then ascii_of_N (code c + 32) else c.

(** ASCII-only case folding, as the [i] flag of a JavaScript regular
    expression without the [u] flag does for an ASCII pattern. *)
Definition ascii_lower_char (c : ascii) : ascii :=
  if is_upper c then ascii_of_N (code c + 32) else c.

Fixpoint map_chars (f : ascii -> ascii) (s : string) : string :=
  match s with
  | EmptyString => EmptyString
  | String c s' => String (f c) (map_chars f s')
  end.

Definition py_lower : string -> string := map_chars lower_char.

Fixpoint forall_chars (p : ascii -> bool) (s : string) : bool :=
  match s with
  | EmptyString => true
  | String c s' => p c && forall_chars p s'
  end.

Fixpoint exists_chars (p : ascii -> bool) (s : string) : bool :=
  match s with
  | EmptyString => false
  | String c s' => p c || exists_chars p s'
  end.

(** [c in s] *)
Definition contains (c : ascii) (s : string) : bool :=
  exists_chars (Ascii.eqb c) s.

(** Truthiness of a string in both languages. *)
Definition nonempty (s : string) : bool :=
  match s with EmptyString => false | String _ _ => true end.

Fixpoint lstrip_by (p : ascii -> bool) (s : string) : string :=
  match s with
  | EmptyString => EmptyString
  | String c s' => if p c then lstrip_by p s' else s
  end.

Fixpoint rstrip_by (p : ascii -> bool) (s : string) : string :=
  match s with
  | EmptyString => EmptyString
  | String c s' =>
      match rstrip_by p s' with
      | EmptyString => if p c then EmptyString else String c EmptyString
      | t => String c t
      end
  end.

Definition strip_by (p : ascii -> bool) (s : string) : string :=
  rstrip_by p (lstrip_by p s).

(** [s.strip()] *)
Definition py_strip : string -> string := strip_by py_isspace.
(** [s.trim()] *)
Definition js_trim : string -> string := strip_by js_isspace.

(** [s.replace(c, "")] *)
Fixpoint remove_char (c : ascii) (s : string) : string :=
  match s with
  | EmptyString => EmptyString
  | String a s' =>
      if Ascii.eqb a c then remove_char c s' else String a (remove_char c s')
  end.

(** [s[:n]] and [s[n:]] for [0 <= n]. *)
Fixpoint take (n : nat) (s : string) : string :=
  match n, s with
  | S n', String c s' => String c (take n' s')
  | _, _ => EmptyString
  end.

Fixpoint drop (n : nat) (s : string) : string :=
  match n, s with
  | S n', String _ s' => drop n' s'
  | _, _ => s
  end.

(** [s.find(c)]; [None] stands for -1. *)
Fixpoint find (c : ascii) (s : string) : option nat :=
  match s with
  | EmptyString => None
  | String a s' => if Ascii.eqb a c then Some O else S <$> find c s'
  end.

(** [s.find(c, start)] *)
Definition find_from (c : ascii) (s : string) (start : nat) : option nat :=
  (fun i => (start + i)%nat) <$> find c (drop start s).

(** [s.rfind(c)] *)
Fixpoint rfind (c : ascii) (s : string) : option nat :=
  match s with
  | EmptyString => None
  | String a s' =>
      match rfind c s' with
      | Some i => Some (S i)
      | None => if Ascii.eqb a c then Some O else None
      end
  end.

(** [s.split(c, 1)] when [c in s]: the text before the first [c] and the
    text after it. *)
Fixpoint split1 (c : ascii) (s : string) : string * string :=
  match s with
  | EmptyString => (EmptyString, EmptyString)
  | String a s' =>
      if Ascii.eqb a c then (EmptyString, s')
      else let '(l, r) := split1 c s' in (String a l, r)
  end.

(** [s.split(c)]: never the empty list. *)
Fixpoint split (c : ascii) (s : string) : list string :=
  match s with
  | EmptyString => [EmptyString]
  | String a s' =>
      if Ascii.eqb a c then EmptyString :: split c s'
      else match split c s' with
           | [] => [String a EmptyString]
           | x :: xs => String a x :: xs
           end
  end.

(** [sep.join(l)] *)
Fixpoint join (sep : string) (l : list string) : string :=
  match l with
  | [] => EmptyString
  | [x] => x
  | x :: l' => x +:+ sep +:+ join sep l'
  end.

(** The longest prefix whose characters all satisfy [p], and the rest. *)
Fixpoint span (p : ascii -> bool) (s : string) : string * string :=
  match s with
  | EmptyString => (EmptyString, EmptyString)
  | String a s' =>
      if p a then let '(l, r) := span p s' in (String a l, r)
      else (EmptyString, s)
  end.

(** Every character of [a] occurs in [b]. *)
Definition sub_chars (a b : string) : Prop :=
  forall p, exists_chars p a = true -> exists_chars p b = true.

Definition startswith (pre s : string) : bool := String.prefix pre s.

Definition endswith (suf s : string) : bool :=
  (String.length suf <=? String.length s)%nat &&
  String.eqb (drop (String.length s - String.length suf) s) suf.

(** [s.replace(a, b)] for one-character [a] and [b]. *)
Fixpoint replace_char (a b : ascii) (s : string) : string :=
  match s with
  | EmptyString => EmptyString
  | String c s' =>
      String (if Ascii.eqb c a then b else c) (replace_char a b s')
  end.

(** [s.count(c)] *)
Fixpoint count_char (c : ascii) (s : string) : nat :=
  match s with
  | EmptyString => O
  | String a s' => (if Ascii.eqb a c then 1 else 0)%nat + count_char c s'
  end.

(** [needle in s] for strings. *)
Fixpoint has_substring (needle s : string) : bool :=
  String.prefix needle s ||
  match s with
  | EmptyString => false
  | String _ s' => has_substring needle s'
  end.

End Str.

(** ** [urllib.parse] (CPython 3.11), as far as the engine uses it *)

Module Urllib.
Import Str.

Definition in_list (s : string) (l : list string) : bool :=
  existsb (String.eqb s) l.

Definition uses_relative : list string :=
  [""; "ftp"; "http"; "gopher"; "nntp"; "imap"; "wais"; "file"; "https";
   "shttp"; "mms"; "prospero"; "rtsp"; "rtspu"; "sftp"; "svn"; "svn+ssh";
   "ws"; "wss"].

Definition uses_netloc : list string :=
  [""; "ftp"; "http"; "gopher"; "nntp"; "telnet"; "imap"; "wais"; "file";
   "mms"; "https"; "shttp"; "snews"; "prospero"; "rtsp"; "rtspu"; "rsync";
   "svn"; "svn+ssh"; "sftp"; "nfs"; "git"; "git+ssh"; "ws"; "wss"].

Definition uses_params : list string :=
  [""; "ftp"; "hdl"; "prospero"; "http"; "imap"; "https"; "shttp"; "rtsp";
   "rtspu"; "sip"; "sips"; "mms"; "sftp"; "tel"].

(** [c in scheme_chars] *)
Definition scheme_char (c : ascii) : bool :=
  is_ascii_alpha c || is_digit c || contains c "+-.".

(** [c in _WHATWG_C0_CONTROL_OR_SPACE] *)
Definition c0_control_or_space (c : ascii) : bool := code c <=? 32.

(** [for b in _UNSAFE_URL_BYTES_TO_REMOVE: url = url.replace(b, "")] *)
Definition remove_unsafe (s : string) : string :=
  remove_char "010" (remove_char "013" (remove_char "009" s)).

Record SplitResult := mkSplit {
  s_scheme : string; s_netloc : string; s_path : string;
  s_query : string; s_fragment : string }.

Record ParseResult := mkParse {
  scheme : string; netloc : string; path : string;
  params : string; query : string; fragment : string }.

(** The scheme detection of [urlsplit]:
    [i = url.find(':')], and when [i > 0], [url[0]] is an ASCII letter and
    every character of [url[:i]] is a scheme character, the scheme is
    [url[:i].lower()] and the rest is [url[i+1:]]. *)
Definition explicit_scheme (url : string) : option (string * string) :=
  match find ":" url, url with
  | Some (S _ as i), String c0 _ =>
      if is_ascii_alpha c0 && forall_chars scheme_char (take i url)
      then Some (py_lower (take i url), drop (S i) url)
      else None
  | _, _ => None
  end.

(** The cleaning [urlsplit] applies to its argument first:
    [url.lstrip(_WHATWG_C0_CONTROL_OR_SPACE)], then the unsafe bytes go. *)
Definition clean_url (url : string) : string :=
  remove_unsafe (lstrip_by c0_control_or_space url).

(** [urlsplit] finds a scheme written in [url] itself: the reference is
    absolute, not relative. *)
Definition has_scheme (url : string) : bool :=
  match explicit_scheme (clean_url url) with
  | Some _ => true
  | None => false
  end.

(** What [explicit_scheme] can return as a scheme: scheme characters only,
    an ASCII letter first, nothing left to lower. *)
Definition valid_scheme (s : string) : bool :=
  match s with
  | EmptyString => false
  | String c _ =>
      is_ascii_alpha c && forall_chars scheme_char s && String.eqb (py_lower s) s
  end.

(** A reference with neither a scheme nor a network location of its own:
    [urlsplit] finds no scheme, and what is left does not start with
    [//]. *)
Definition is_relative (url : string) : bool :=
  negb (has_scheme url) && negb (startswith "//" (clean_url url)).

Definition _splitnetloc (url : string) (start : nat) : string * string :=
  let delim :=
    fold_left
      (fun delim c =>
         match find_from c url start with
         | Some wdelim => Nat.min delim wdelim
         | None => delim
         end)
      ["/"; "?"; "#"]%char (String.length url) in
  (take (delim - start) (drop start url), drop delim url).

Section Parse.

(** [_check_bracketed_netloc] validates an IPv6 or IPvFuture literal with
    the [ipaddress] module and a regular expression; the engine's behaviour
    depends on it only through acceptance or rejection of a network
    location that holds both brackets. *)
Variable bracketed_netloc_ok : string -> bool.

(** In [urlsplit]: [if url[:2] == '//': ...], the network location with
    its bracket checks, and the rest. *)
Definition split_netloc (url : string) : result (string * string) :=
  if startswith "//" url then
    let '(netloc, rest) := _splitnetloc url 2 in
    if (contains "[" netloc && negb (contains "]" netloc))
       || (contains "]" netloc && negb (contains "[" netloc))
    then Raise (ValueError "Invalid IPv6 URL")
    else if contains "[" netloc && contains "]" netloc
              && negb (bracketed_netloc_ok netloc)
    then Raise (ValueError "Invalid IPv6 URL")
    else Ok (netloc, rest)
  else Ok (EmptyString, url).

(** In [urlsplit]: the fragment goes first, then the query. *)
Definition split_fragment_query (scheme netloc url : string) : SplitResult :=
  let '(url, fragment) :=
    if contains "#" url then split1 "#" url else (url, EmptyString) in
  let '(url, query) :=
    if contains "?" url then split1 "?" url else (url, EmptyString) in
  mkSplit scheme netloc url query fragment.

(** [_checknetloc] looks for characters whose NFKC form contains one of
    [/?#@:]; no code point below 256 has such a form, so it never raises
    here. *)
Definition urlsplit (url scheme : string) : result SplitResult :=
  let url := clean_url url in
  let scheme := remove_unsafe (strip_by c0_control_or_space scheme) in
  let '(scheme, url) :=
    match explicit_scheme url with
    | Some (s, rest) => (s, rest)
    | None => (scheme, url)
    end in
  '(netloc, url) ← split_netloc url;
  Ok (split_fragment_query scheme netloc url).

Definition _splitparams (url : string) : string * string :=
  if contains "/" url then
    match rfind "/" url with
    | Some r =>
        match find_from ";" url r with
        | Some i => (take i url, drop (S i) url)
        | None => (url, EmptyString)
        end
    | None => (url, EmptyString)
    end
  else
    match find ";" url with
    | Some i => (take i url, drop (S i) url)
    | None => (url, EmptyString)
    end.

Definition urlparse (url scheme : string) : result ParseResult :=
  r ← urlsplit url scheme;
  let '(url, params) :=
    if in_list (s_scheme r) uses_params && contains ";" (s_path r)
    then _splitparams (s_path r) else (s_path r, EmptyString) in
  Ok (mkParse (s_scheme r) (s_netloc r) url params (s_query r) (s_fragment r)).

Definition urlunsplit (c : SplitResult) : string :=
  let url := s_path c in
  let url :=
    if nonempty (s_netloc c)
       || (nonempty (s_scheme c) && in_list (s_scheme c) uses_netloc
           && negb (String.eqb (take 2 url) "//"))
    then
      let url :=
        if nonempty url && negb (String.eqb (take 1 url) "/")
        then "/" +:+ url else url in
      "//" +:+ s_netloc c +:+ url
    else url in
  let url := if nonempty (s_scheme c) then s_scheme c +:+ ":" +:+ url else url in
  let url := if nonempty (s_query c) then url +:+ "?" +:+ s_query c else url in
  let url :=
    if nonempty (s_fragment c) then url +:+ "#" +:+ s_fragment c else url in
  url.

Definition urlunparse (c : ParseResult) : string :=
  let url := if nonempty (params c) then path c +:+ ";" +:+ params c else path c in
  urlunsplit (mkSplit (scheme c) (netloc c) url (query c) (fragment c)).

(** [segments[1:-1] = filter(None, segments[1:-1])] *)
Definition filter_middle (segments : list string) : list string :=
  match segments with
  | [] => []
  | x :: rest =>
      match rest with
      | [] => [x]
      | _ => x :: List.filter nonempty (removelast rest) ++ [List.last rest EmptyString]
      end
  end.

(** One turn of the loop over [segments]; [resolved_path.pop()] on an empty
    list raises [IndexError], which the loop swallows. *)
Definition resolve_step (resolved_path : list string) (seg : string) : list string :=
  if String.eqb seg ".." then removelast resolved_path
  else if String.eqb seg "." then resolved_path
  else resolved_path ++ [seg].

Definition urljoin (base url : string) : result string :=
  if negb (nonempty base) then Ok url
  else if negb (nonempty url) then Ok base
  else
    b ← urlparse base EmptyString;
    u ← urlparse url (scheme b);
    if negb (String.eqb (scheme u) (scheme b))
       || negb (in_list (scheme u) uses_relative)
    then Ok url
    else if in_list (scheme u) uses_netloc && nonempty (netloc u)
    then Ok (urlunparse u)
    else
      let netloc' :=
        if in_list (scheme u) uses_netloc then netloc b else netloc u in
      if negb (nonempty (path u)) && negb (nonempty (params u)) then
        let query' := if nonempty (query u) then query u else query b in
        Ok (urlunparse
              (mkParse (scheme u) netloc' (path b) (params b) query' (fragment u)))
      else
        let base_parts := split "/" (path b) in
        let base_parts :=
          if nonempty (List.last base_parts EmptyString)
          then removelast base_parts else base_parts in
        let segments :=
          if String.eqb (take 1 (path u)) "/" then split "/" (path u)
          else filter_middle (base_parts ++ split "/" (path u)) in
        let resolved_path := fold_left resolve_step segments [] in
        let resolved_path :=
          if in_list (List.last segments EmptyString) ["."; ".."]
          then resolved_path ++ [EmptyString] else resolved_path in
        let joined := join "/" resolved_path in
        Ok (urlunparse
              (mkParse (scheme u) netloc'
                 (if nonempty joined then joined else "/")
                 (params u) (query u) (fragment u))).

(** [urldefrag(url)[0]] *)
Definition urldefrag (url : string) : result string :=
  if contains "#" url then
    p ← urlparse url EmptyString;
    Ok (urlunparse
          (mkParse (scheme p) (netloc p) (path p) (params p) (query p) EmptyString))
  else Ok url.

End Parse.

End Urllib.

(** ** The in-page script of [_extract_js] *)

(** One element of the array the script returns, as [page.evaluate] hands
    it to Python: the three keys are always present, each holding a string
    or [null] ([None]). *)
Record Row := mkRow {
  tax_list_entity_title : option string;
  tax_list_file : option string;
  tax_list_file_href : option string }.

#[global] Instance Row_eq_dec : EqDecision Row.
Proof. solve_decision. Defined.

Module Js.
Import Str.

(** The DOM queries the script makes. [innerText] is [None] where the
    property is [undefined] (an element that is not an [HTMLElement]),
    [textContent] and [getAttribute] where they are [null]. Results of
    [querySelectorAll] are in document order. *)
Class Dom (Node : Type) := {
  document : Node;
  querySelectorAll : Node -> string -> list Node;
  querySelector : Node -> string -> option Node;
  matches : Node -> string -> bool;
  closest : Node -> string -> option Node;
  parentElement : Node -> option Node;
  innerText : Node -> option string;
  textContent : Node -> option string;
  getAttribute : Node -> string -> option string }.

(** Truthiness of a string-or-null value. *)
Definition truthy (v : option string) : bool :=
  match v with Some s => nonempty s | None => false end.

(** [a || b] *)
Definition js_or (a b : option string) : option string :=
  if truthy a then a else b.

(** [a || ""] *)
Definition or_empty (a : option string) : string :=
  match a with Some s => s | None => EmptyString end.

(** [/[A-Za-z]/.test(txt)] *)
Definition has_letter (txt : string) : bool := exists_chars is_ascii_alpha txt.

(** [/county|pct|sale|isd|sheriff/i.test(txt)] *)
Definition has_keyword (txt : string) : bool :=
  let folded := map_chars ascii_lower_char txt in
  existsb (fun k => has_substring k folded)
    ["county"; "pct"; "sale"; "isd"; "sheriff"].

Section Script.
Context {Node : Type} `{Dom Node}.

(** [el.innerText || el.textContent || ""] *)
Definition visible_text (el : Node) : string :=
  or_empty (js_or (js_or (innerText el) (textContent el)) (Some EmptyString)).

(** [titleEl.closest(".tax-list-entity") || titleEl.parentElement || document] *)
Definition root_of (titleEl : Node) : Node :=
  match closest titleEl ".tax-list-entity" with
  | Some r => r
  | None => match parentElement titleEl with
            | Some p => p
            | None => document
            end
  end.

(** [s.closest("li,section,div,ul,ol") || s.parentElement || document] *)
Definition container_of (s : Node) : Node :=
  match closest s "li,section,div,ul,ol" with
  | Some c => c
  | None => match parentElement s with
            | Some p => p
            | None => document
            end
  end.

(** [(s.innerText || "").trim()] *)
Definition section_text (s : Node) : string :=
  js_trim (or_empty (js_or (innerText s) (Some EmptyString))).

(** In [record]: [elFile.matches('a') ? elFile : elFile.querySelector('a')]. *)
Definition anchor_of (elFile : Node) : option Node :=
  if matches elFile "a" then Some elFile else querySelector elFile "a".

(** In [record]: [a ? a.innerText : elFile.innerText]. *)
Definition file_text (elFile : Node) : option string :=
  match anchor_of elFile with
  | Some a => innerText a
  | None => innerText elFile
  end.

(** [const record = (title, elFile) => { ... }], with [out] threaded. *)
Definition record (title : string) (elFile : option Node) (out : list Row)
  : list Row :=
  match elFile with
  | None => out
  | Some elFile =>
      let a := anchor_of elFile in
      let label := if truthy (file_text elFile)
                   then js_trim <$> file_text elFile else None in
      let href := match a with
                  | Some a => getAttribute a "href"
                  | None => None
                  end in
      out ++ [mkRow (if nonempty title then Some (js_trim title) else None)
                    label href]
  end.

(** The body of [for (const titleEl of entities)]. *)
Definition tierA_title (out : list Row) (titleEl : Node) : list Row :=
  let title := visible_text titleEl in
  let root := root_of titleEl in
  let files := querySelectorAll root ".tax-list-file, .tax-list-file a" in
  if (0 <? List.length files)%nat then
    fold_left (fun out el => record title (Some el) out) files out
  else
    fold_left (fun out a => record title (Some a) out)
      (querySelectorAll root
         "a[href$='.pdf'], a[href*='sale'], a[href^='http'], a[href^='/']")
      out.

(** The body of [links.forEach(a => { ... })]. *)
Definition tierB_link (txt : string) (out : list Row) (a : Node) : list Row :=
  let label := js_trim (visible_text a) in
  let href := getAttribute a "href" in
  if negb (truthy href) then out
  else if startswith "#" (or_empty href) then out
  else out ++ [mkRow (Some txt)
                     (if nonempty label then Some label else None)
                     href].

(** The body of [for (const s of sections)]. *)
Definition tierB_section (out : list Row) (s : Node) : list Row :=
  let txt := section_text s in
  if negb (nonempty txt) then out
  else if negb (has_letter txt) then out
  else if negb (has_keyword txt) then out
  else
    let container := container_of s in
    let links := querySelectorAll container "a[href]" in
    fold_left (tierB_link txt) links out.

(** The [if (hasExplicit)] branch, from an empty [out]. *)
Definition tierA (entities : list Node) : list Row :=
  fold_left tierA_title entities [].

(** The [else] branch, from an empty [out]. *)
Definition tierB : list Row :=
  fold_left tierB_section
    (querySelectorAll document "h1,h2,h3,strong,b,li") [].

(** The whole script: what [page.evaluate(js)] returns. *)
Definition script : list Row :=
  let entities := querySelectorAll document ".tax-list-entity-title" in
  let hasExplicit := (0 <? List.length entities)%nat in
  if hasExplicit then tierA entities else tierB.

(** *** The same script, read as lists of rows *)

(** The row one call of [record] pushes. *)
Definition record_row (title : string) (elFile : Node) : Row :=
  mkRow (if nonempty title then Some (js_trim title) else None)
        (if truthy (file_text elFile) then js_trim <$> file_text elFile else None)
        (match anchor_of elFile with
         | Some a => getAttribute a "href"
         | None => None
         end).

(** The elements [record] is called on for one title. *)
Definition file_elements (titleEl : Node) : list Node :=
  let files := querySelectorAll (root_of titleEl)
                 ".tax-list-file, .tax-list-file a" in
  if (0 <? List.length files)%nat then files
  else querySelectorAll (root_of titleEl)
         "a[href$='.pdf'], a[href*='sale'], a[href^='http'], a[href^='/']".

Definition title_rows (titleEl : Node) : list Row :=
  record_row (visible_text titleEl) <$> file_elements titleEl.

(** The rows one anchor contributes under the heading text [txt]. *)
Definition link_rows (txt : string) (a : Node) : list Row :=
  tierB_link txt [] a.

(** A heading the heuristic path accepts. *)
Definition is_heading (s : Node) : bool :=
  nonempty (section_text s) && has_letter (section_text s)
  && has_keyword (section_text s).

Definition section_rows (s : Node) : list Row :=
  if is_heading s
  then querySelectorAll (container_of s) "a[href]" ≫= link_rows (section_text s)
  else [].

End Script.
End Js.

(** ** The Python side: [PBFcmsScraper] *)

(** The value of [_normalize]: a dict with four fixed keys. *)
Record NormRow := mkNorm {
  entity_title : option string;
  file_label : option string;
  file_url : option string;
  file_type : option string }.

(** The value of [scrape]. *)
Record ScrapeResult := mkResult {
  source_url : string;
  count : nat;
  raw : list Row;
  normalized : list NormRow }.

Module Engine.
Import Str Urllib.

Definition PBF_URL : string := "https://www.pbfcm.com/taxsale.html".

(** [x or ""] for a string-or-None value. *)
Definition or_str (x : option string) : string :=
  match x with
  | Some s => s
  | None => EmptyString
  end.

(** [x or None] *)
Definition or_None (x : option string) : option string :=
  match x with
  | Some s => if nonempty s then Some s else None
  | None => None
  end.

(** The tuple [key] of the duplicate filter. *)
Definition key_of (r : Row) : string * string * string :=
  (or_str (tax_list_entity_title r), or_str (tax_list_file r),
   or_str (tax_list_file_href r)).

Section WithUrllib.
Variable bracketed_netloc_ok : string -> bool.

(** [urldefrag(urljoin(PBF_URL, href))[0]] *)
Definition canonical_url (href : string) : result string :=
  absu ← urljoin bracketed_netloc_ok PBF_URL href;
  urldefrag bracketed_netloc_ok absu.

(** The first half of the loop body of [_extract_js]:
    [if href: ...; r["tax-list-file href"] = absu]. *)
Definition absolutize (r : Row) : result Row :=
  match tax_list_file_href r with
  | Some href =>
      if nonempty href then
        absu ← canonical_url href;
        Ok (mkRow (tax_list_entity_title r) (tax_list_file r) (Some absu))
      else Ok r
  | None => Ok r
  end.

(** [for r in rows: ...] with the loop variables [seen] and [cleaned]. *)
Fixpoint clean_loop (rows : list Row) (seen : gset (string * string * string))
    (cleaned : list Row) : result (list Row) :=
  match rows with
  | [] => Ok cleaned
  | r :: rows' =>
      r ← absolutize r;
      let key := key_of r in
      if bool_decide (key ∈ seen) then clean_loop rows' seen cleaned
      else clean_loop rows' ({[key]} ∪ seen) (cleaned ++ [r])
  end.

(** The loop again, without the accumulator [cleaned] and over rows whose
    URLs are already canonical. *)
Fixpoint keep_unseen (seen : gset (string * string * string)) (rows : list Row)
  : list Row :=
  match rows with
  | [] => []
  | r :: rows' =>
      if bool_decide (key_of r ∈ seen) then keep_unseen seen rows'
      else r :: keep_unseen ({[key_of r]} ∪ seen) rows'
  end.

(** [_extract_js], given the rows [page.evaluate(js)] returned. *)
Definition clean_rows (rows : list Row) : result (list Row) :=
  clean_loop rows ∅ [].

Definition _extract_js {Node : Type} `{Js.Dom Node} : result (list Row) :=
  clean_rows Js.script.

(** [_file_type] *)
Definition _file_type (url : option string) : result (option string) :=
  match url with
  | None => Ok None
  | Some u =>
      if negb (nonempty u) then Ok None
      else
        p ← urlparse bracketed_netloc_ok u EmptyString;
        let path := py_lower (path p) in
        if endswith ".pdf" path then Ok (Some "pdf")
        else if endswith ".doc" path || endswith ".docx" path then Ok (Some "doc")
        else if endswith ".xls" path || endswith ".xlsx" path then Ok (Some "xls")
        else Ok None
  end.

(** [_normalize] *)
Definition _normalize (raw : Row) : result NormRow :=
  let entity := or_None (Some (py_strip (or_str (tax_list_entity_title raw)))) in
  let label := or_None (Some (py_strip (or_str (tax_list_file raw)))) in
  let href := or_None (tax_list_file_href raw) in
  ft ← _file_type href;
  Ok (mkNorm entity label href ft).

(** *** Browser lifecycle *)

(** What the scraper asks of Playwright, in order. *)
Inductive event :=
| PlaywrightStart (pw : nat)
| ChromiumLaunch (pw browser : nat) (headless : bool)
| BrowserClose (browser : nat)
| PlaywrightStop (pw : nat)
| NewContext (browser ctx : nat)
| NewPage (ctx page : nat)
| Goto (page : nat) (url : string)
| WaitForTimeout (page : nat) (ms : nat)
| ContextClose (ctx : nat).

(** A [PBFcmsScraper] object ([_pw], [_browser], [headless]) together with
    the Playwright side it talks to: the requests made so far and the next
    fresh handle. *)
Record Scraper := mkScraper {
  headless : bool;
  _pw : option nat;
  _browser : option nat;
  log : list event;
  fresh : nat }.

(** [start] *)
Definition start (s : Scraper) : Scraper :=
  match _browser s with
  | Some _ => s
  | None =>
      let pw := fresh s in
      let browser := S (fresh s) in
      mkScraper (headless s) (Some pw) (Some browser)
        (log s ++ [PlaywrightStart pw; ChromiumLaunch pw browser (headless s)])
        (S (S (fresh s)))
  end.

(** [stop] *)
Definition stop (s : Scraper) : Scraper :=
  let s :=
    match _browser s with
    | Some b => mkScraper (headless s) (_pw s) None
                  (log s ++ [BrowserClose b]) (fresh s)
    | None => s
    end in
  match _pw s with
  | Some p => mkScraper (headless s) None (_browser s)
                (log s ++ [PlaywrightStop p]) (fresh s)
  | None => s
  end.

(** [scrape]; the rendered page is the [Dom] instance. An exception from
    [_extract_js] or [_normalize] leaves the browsing context open. *)
Definition scrape {Node : Type} `{Js.Dom Node} (s : Scraper)
  : result ScrapeResult * Scraper :=
  let s := start s in
  match _browser s with
  | None => (Raise (AssertionError "Call start() first."), s)
  | Some b =>
      let ctx := fresh s in
      let page := S (fresh s) in
      let s := mkScraper (headless s) (_pw s) (_browser s)
                 (log s ++ [NewContext b ctx; NewPage ctx page;
                            Goto page PBF_URL; WaitForTimeout page 400])
                 (S (S (fresh s))) in
      match _extract_js with
      | Raise e => (Raise e, s)
      | Ok raw_rows =>
          match mapM _normalize raw_rows with
          | Raise e => (Raise e, s)
          | Ok norm_rows =>
              (Ok (mkResult PBF_URL (List.length raw_rows) raw_rows norm_rows),
               mkScraper (headless s) (_pw s) (_browser s)
                 (log s ++ [ContextClose ctx]) (fresh s))
          end
      end
  end.

End WithUrllib.
End Engine.

(** ** The command line: [pbfcm_cli.py] *)

Module Cli.
Import Str.

Definition RAW_HEADERS : list string :=
  ["tax-list-entity-title"; "tax-list-file"; "tax-list-file href"].

(** [r.get(h)] on a raw row. *)
Definition raw_get (r : Row) (h : string) : option string :=
  if String.eqb h "tax-list-entity-title" then tax_list_entity_title r
  else if String.eqb h "tax-list-file" then tax_list_file r
  else if String.eqb h "tax-list-file href" then tax_list_file_href r
  else None.

(** [(r.get(h) or "").replace("\t"," ").replace("\n"," ").strip()] *)
Definition tsv_field (x : option string) : string :=
  py_strip (replace_char "010" " " (replace_char "009" " " (Engine.or_str x))).

(** [row = [ ... for h in RAW_HEADERS ]] *)
Definition tsv_row (r : Row) : list string :=
  (fun h => tsv_field (raw_get r h)) <$> RAW_HEADERS.

(** ["\t".join(row) + "\n"] *)
Definition tsv_line (r : Row) : string :=
  join (String "009" EmptyString) (tsv_row r) +:+ String "010" EmptyString.

(** ["\t".join(RAW_HEADERS) + "\n"] *)
Definition tsv_header : string :=
  join (String "009" EmptyString) RAW_HEADERS +:+ String "010" EmptyString.

(** [for r in raw: raw_tsv.write(...)] *)
Fixpoint tsv_lines (raw : list Row) : string :=
  match raw with
  | [] => EmptyString
  | r :: raw' => tsv_line r +:+ tsv_lines raw'
  end.





Section Main.
Variable bracketed_netloc_ok : string -> bool.
Context {Node : Type} `{Js.Dom Node}.


End Main.
End Cli.

(** ** The HTTP service: [pbfcm_api.py] *)

Module Api.

(** [scraper = PBFcmsScraper(headless=True)], with Playwright as it is
    when the module is loaded. *)
Definition scraper (log : list Engine.event) (fresh : nat) : Engine.Scraper :=
  Engine.mkScraper true None None log fresh.

(** [_startup] and [_shutdown] *)
Definition _startup (s : Engine.Scraper) : Engine.Scraper := Engine.start s.
Definition _shutdown (s : Engine.Scraper) : Engine.Scraper := Engine.stop s.

Section Service.
Variable bracketed_netloc_ok : string -> bool.
Context {Node : Type}.

(** [GET /pbfcm/scrape], once per element of [pages]: the page the site
    serves at that request. Requests are taken one after the other; an
    exception becomes an error response and the service goes on. *)
Fixpoint serve (pages : list (Js.Dom Node)) (s : Engine.Scraper)
  : list (result ScrapeResult) * Engine.Scraper :=
  match pages with
  | [] => ([], s)
  | page :: pages' =>
      let '(data, s) := @Engine.scrape bracketed_netloc_ok Node page s in
      let '(rest, s) := serve pages' s in
      (data :: rest, s)
  end.

(** Startup, the requests, shutdown. *)
Definition lifetime (pages : list (Js.Dom Node)) (log : list Engine.event)
    (fresh : nat) : list (result ScrapeResult) * Engine.Scraper :=
  let '(responses, s) := serve pages (_startup (scraper log fresh)) in
  (responses, _shutdown s).

End Service.

Definition is_launch (e : Engine.event) : bool :=
  match e with
  | Engine.PlaywrightStart _ | Engine.ChromiumLaunch _ _ _ => true
  | _ => false
  end.

Definition is_new_context (e : Engine.event) : bool :=
  match e with Engine.NewContext _ _ => true | _ => false end.

(** A request for a browsing context names browser [b]. *)
Definition on_browser (b : nat) (e : Engine.event) : Prop :=
  match e with
  | Engine.NewContext b' _ => b' = b
  | _ => True
  end.

End Api.

(** ** The specification's wording, for comparison with the code *)

Module Spec.
Import Str.

(** "keeping, in original order, the first occurrence of each key": the
    record at position [i] stays exactly when no earlier position holds a
    record with the same key. *)
Definition is_first_occurrence (l : list Row) (i : nat) : bool :=
  match l !! i with
  | Some r => bool_decide (Engine.key_of r ∉ Engine.key_of <$> List.firstn i l)
  | None => false
  end.

Definition first_occurrences (l : list Row) : list Row :=
  omap (fun i => if is_first_occurrence l i then l !! i else None)
       (seq 0 (List.length l)).

(** Two records that differ in one field only, null on one side and the
    empty string on the other. *)
Definition null_vs_empty (a b : option string) : Prop :=
  (a = None ∧ b = Some EmptyString) ∨ (a = Some EmptyString ∧ b = None).

Definition differ_only_null_vs_empty (r1 r2 : Row) : Prop :=
  (null_vs_empty (tax_list_entity_title r1) (tax_list_entity_title r2)
   ∧ tax_list_file r1 = tax_list_file r2
   ∧ tax_list_file_href r1 = tax_list_file_href r2)
  ∨ (tax_list_entity_title r1 = tax_list_entity_title r2
     ∧ null_vs_empty (tax_list_file r1) (tax_list_file r2)
     ∧ tax_list_file_href r1 = tax_list_file_href r2)
  ∨ (tax_list_entity_title r1 = tax_list_entity_title r2
     ∧ tax_list_file r1 = tax_list_file r2
     ∧ null_vs_empty (tax_list_file_href r1) (tax_list_file_href r2)).

(** "trimmed raw value, or null if empty after trim" *)
Definition trimmed_or_null (x : option string) : option string :=
  match x with
  | None => None
  | Some s => if nonempty (py_strip s) then Some (py_strip s) else None
  end.

(** "the raw href unchanged, or null if absent", an empty href counting as
    absent. *)
Definition href_or_null (x : option string) : option string :=
  match x with
  | Some (String c s) => Some (String c s)
  | _ => None
  end.

End Spec.

(** ** Three small rendered pages *)

Module Pages.

Definition sel (a b : string) : bool := String.eqb a b.

(** [smith_page]:
    <div class="tax-list-entity">                          node 1
      <span class="tax-list-entity-title">Smith County</span>   node 2
      <a class="tax-list-file" href="/docs/notice.pdf">Notice</a>   node 3
    </div> *)
Definition smith_page : Js.Dom nat := {|
  Js.document := 0%nat;
  Js.querySelectorAll n s :=
    match n with
    | 0%nat => if sel s ".tax-list-entity-title" then [2%nat]
               else if sel s "a[href]" then [3%nat] else []
    | 1%nat => if sel s ".tax-list-file, .tax-list-file a" then [3%nat]
               else if sel s "a[href]" then [3%nat] else []
    | _ => []
    end;
  Js.querySelector n s := None;
  Js.matches n s := match n with 3%nat => sel s "a" | _ => false end;
  Js.closest n s :=
    match n with
    | 2%nat | 3%nat =>
        if sel s ".tax-list-entity" || sel s "li,section,div,ul,ol"
        then Some 1%nat else None
    | _ => None
    end;
  Js.parentElement n :=
    match n with 2%nat | 3%nat => Some 1%nat | _ => None end;
  Js.innerText n :=
    match n with
    | 1%nat => Some "Smith County Notice"
    | 2%nat => Some "Smith County"
    | 3%nat => Some "Notice"
    | _ => None
    end;
  Js.textContent n :=
    match n with
    | 1%nat => Some "Smith CountyNotice"
    | 2%nat => Some "Smith County"
    | 3%nat => Some "Notice"
    | _ => None
    end;
  Js.getAttribute n s :=
    match n with
    | 3%nat => if sel s "href" then Some "/docs/notice.pdf" else None
    | _ => None
    end |}.

(** [heading_page], without the explicit classes:
    <ul>                                                    node 1
      <li>Smith County Sale                                 node 2
        <a href="/files/a.pdf#page=2">List</a>              node 3
        <a href="#top"> </a>                                node 4
        <a href="files/b.docx"> </a>                        node 5
        <a href="/files/a.pdf#page=3">List</a>              node 6
      </li>
    </ul> *)
Definition heading_page : Js.Dom nat := {|
  Js.document := 0%nat;
  Js.querySelectorAll n s :=
    match n with
    | 0%nat => if sel s "h1,h2,h3,strong,b,li" then [2%nat]
               else if sel s "a[href]" then [3; 4; 5; 6]%nat else []
    | 1%nat | 2%nat => if sel s "a[href]" then [3; 4; 5; 6]%nat else []
    | _ => []
    end;
  Js.querySelector n s := None;
  Js.matches n s :=
    match n with 3%nat | 4%nat | 5%nat | 6%nat => sel s "a" | _ => false end;
  Js.closest n s :=
    match n with
    | 2%nat | 3%nat | 4%nat | 5%nat | 6%nat =>
        if sel s "li,section,div,ul,ol" then Some 2%nat else None
    | 1%nat => if sel s "li,section,div,ul,ol" then Some 1%nat else None
    | _ => None
    end;
  Js.parentElement n :=
    match n with
    | 2%nat => Some 1%nat
    | 3%nat | 4%nat | 5%nat | 6%nat => Some 2%nat
    | _ => None
    end;
  Js.innerText n :=
    match n with
    | 1%nat | 2%nat => Some "Smith County Sale List List"
    | 3%nat | 6%nat => Some "List"
    | 4%nat | 5%nat => Some ""
    | _ => None
    end;
  Js.textContent n :=
    match n with
    | 1%nat | 2%nat => Some "Smith County Sale List   List"
    | 3%nat | 6%nat => Some "List"
    | 4%nat | 5%nat => Some " "
    | _ => None
    end;
  Js.getAttribute n s :=
    match n with
    | 3%nat => if sel s "href" then Some "/files/a.pdf#page=2" else None
    | 4%nat => if sel s "href" then Some "#top" else None
    | 5%nat => if sel s "href" then Some "files/b.docx" else None
    | 6%nat => if sel s "href" then Some "/files/a.pdf#page=3" else None
    | _ => None
    end |}.

(** [bare_title_page]: an explicit title with no file under it, next to a
    list item the heuristic path would pick up.
    <div class="tax-list-entity">                          node 1
      <span class="tax-list-entity-title">Jones County</span>   node 2
    </div>
    <ul>                                                    node 3
      <li>Jones County sale                                 node 4
        <a href="/files/jones.pdf">Jones list</a>           node 5
      </li>
    </ul> *)
Definition bare_title_page : Js.Dom nat := {|
  Js.document := 0%nat;
  Js.querySelectorAll n s :=
    match n with
    | 0%nat => if sel s ".tax-list-entity-title" then [2%nat]
               else if sel s "h1,h2,h3,strong,b,li" then [4%nat]
               else if sel s "a[href]" then [5%nat] else []
    | 3%nat | 4%nat => if sel s "a[href]" then [5%nat] else []
    | _ => []
    end;
  Js.querySelector n s := None;
  Js.matches n s := match n with 5%nat => sel s "a" | _ => false end;
  Js.closest n s :=
    match n with
    | 2%nat => if sel s ".tax-list-entity" || sel s "li,section,div,ul,ol"
               then Some 1%nat else None
    | 4%nat | 5%nat => if sel s "li,section,div,ul,ol" then Some 4%nat else None
    | _ => None
    end;
  Js.parentElement n :=
    match n with
    | 2%nat => Some 1%nat
    | 4%nat => Some 3%nat
    | 5%nat => Some 4%nat
    | _ => None
    end;
  Js.innerText n :=
    match n with
    | 1%nat | 2%nat => Some "Jones County"
    | 3%nat | 4%nat => Some "Jones County sale Jones list"
    | 5%nat => Some "Jones list"
    | _ => None
    end;
  Js.textContent n :=
    match n with
    | 1%nat | 2%nat => Some "Jones County"
    | 3%nat | 4%nat => Some "Jones County sale Jones list"
    | 5%nat => Some "Jones list"
    | _ => None
    end;
  Js.getAttribute n s :=
    match n with
    | 5%nat => if sel s "href" then Some "/files/jones.pdf" else None
    | _ => None
    end |}.

(** [blank_page]: explicit markup whose texts are blank.
    <div class="tax-list-entity">                          node 1
      <span class="tax-list-entity-title" hidden>  </span>      node 2
      <a class="tax-list-file" href="/a.pdf" style="white-space:pre"> </a>
                                                            node 3
      <a class="tax-list-file" href=""></a>                 node 4
    </div> *)
Definition blank_page : Js.Dom nat := {|
  Js.document := 0%nat;
  Js.querySelectorAll n s :=
    match n with
    | 0%nat => if sel s ".tax-list-entity-title" then [2%nat]
               else if sel s "a[href]" then [3; 4]%nat else []
    | 1%nat => if sel s ".tax-list-file, .tax-list-file a" then [3; 4]%nat
               else if sel s "a[href]" then [3; 4]%nat else []
    | _ => []
    end;
  Js.querySelector n s := None;
  Js.matches n s := match n with 3%nat | 4%nat => sel s "a" | _ => false end;
  Js.closest n s :=
    match n with
    | 2%nat | 3%nat | 4%nat =>
        if sel s ".tax-list-entity" || sel s "li,section,div,ul,ol"
        then Some 1%nat else None
    | _ => None
    end;
  Js.parentElement n :=
    match n with 2%nat | 3%nat | 4%nat => Some 1%nat | _ => None end;
  Js.innerText n :=
    match n with
    | 1%nat => Some " "
    | 2%nat => Some ""
    | 3%nat => Some " "
    | 4%nat => Some ""
    | _ => None
    end;
  Js.textContent n :=
    match n with
    | 1%nat => Some "   "
    | 2%nat => Some "  "
    | 3%nat => Some " "
    | 4%nat => Some ""
    | _ => None
    end;
  Js.getAttribute n s :=
    match n with
    | 3%nat => if sel s "href" then Some "/a.pdf" else None
    | 4%nat => if sel s "href" then Some "" else None
    | _ => None
    end |}.

(** [bracket_page]: one file link whose href has a scheme, an empty
    network location and a bracket in its path.
    <div class="tax-list-entity">                          node 1
      <span class="tax-list-entity-title">Lee County</span>     node 2
      <a class="tax-list-file" href="http:////[#f">List</a>     node 3
    </div> *)
Definition bracket_page : Js.Dom nat := {|
  Js.document := 0%nat;
  Js.querySelectorAll n s :=
    match n with
    | 0%nat => if sel s ".tax-list-entity-title" then [2%nat]
               else if sel s "a[href]" then [3%nat] else []
    | 1%nat => if sel s ".tax-list-file, .tax-list-file a" then [3%nat]
               else if sel s "a[href]" then [3%nat] else []
    | _ => []
    end;
  Js.querySelector n s := None;
  Js.matches n s := match n with 3%nat => sel s "a" | _ => false end;
  Js.closest n s :=
    match n with
    | 2%nat | 3%nat =>
        if sel s ".tax-list-entity" || sel s "li,section,div,ul,ol"
        then Some 1%nat else None
    | _ => None
    end;
  Js.parentElement n :=
    match n with 2%nat | 3%nat => Some 1%nat | _ => None end;
  Js.innerText n :=
    match n with
    | 1%nat => Some "Lee County List"
    | 2%nat => Some "Lee County"
    | 3%nat => Some "List"
    | _ => None
    end;
  Js.textContent n :=
    match n with
    | 1%nat => Some "Lee CountyList"
    | 2%nat => Some "Lee County"
    | 3%nat => Some "List"
    | _ => None
    end;
  Js.getAttribute n s :=
    match n with
    | 3%nat => if sel s "href" then Some "http:////[#f" else None
    | _ => None
    end |}.

(** The IPv6 literal check, for the pages above (none of their links has a
    bracket): reject. *)
Definition no_brackets (netloc : string) : bool := false.

(** A scraper object as [PBFcmsScraper(headless=True)] leaves it. *)
Definition new_scraper : Engine.Scraper :=
  Engine.mkScraper true None None [] 0.

End Pages.

(** * Properties *)

(** ** The script *)

Section ScriptFacts.
Import Str Js.
Context {Node : Type} `{Dom Node}.

Lemma fold_left_push {A B : Type} (f : list B -> A -> list B) (g : A -> list B) :
  (forall out x, f out x = out ++ g x) ->
  forall l out, fold_left f l out = out ++ (l ≫= g).
Proof.
  intros Hf l. induction l as [|x l IH]; intros out; simpl.
  - by rewrite app_nil_r.
  - rewrite IH, Hf, <- (assoc_L (++)). done.
Qed.

Lemma record_pushes title el out :
  record title (Some el) out = out ++ [record_row title el].
Proof. reflexivity. Qed.

Lemma tierA_title_pushes out titleEl :
  tierA_title out titleEl = out ++ title_rows titleEl.
Proof.
  unfold tierA_title, title_rows, file_elements.
  destruct (0 <? _)%nat;
    rewrite (fold_left_push _ (fun el => [record_row (visible_text titleEl) el]))
      by (intros; apply record_pushes);
    f_equal; generalize (visible_text titleEl); intros t;
    match goal with |- ?l ≫= _ = _ => induction l as [|x l IH] end;
    simpl; try done; by rewrite <- IH.
Qed.

Lemma tierA_rows entities : tierA entities = entities ≫= title_rows.
Proof.
  unfold tierA. rewrite (fold_left_push _ title_rows); [done|].
  apply tierA_title_pushes.
Qed.

Lemma tierB_link_pushes txt out a :
  tierB_link txt out a = out ++ link_rows txt a.
Proof.
  unfold link_rows, tierB_link.
  destruct (negb _); [by rewrite app_nil_r|].
  destruct (startswith _ _); [by rewrite app_nil_r|]. done.
Qed.

Lemma tierB_section_pushes out s :
  tierB_section out s = out ++ section_rows s.
Proof.
  unfold tierB_section, section_rows, is_heading.
  destruct (nonempty (section_text s)); simpl; [|by rewrite app_nil_r].
  destruct (has_letter (section_text s)); simpl; [|by rewrite app_nil_r].
  destruct (has_keyword (section_text s)); simpl; [|by rewrite app_nil_r].
  apply fold_left_push. apply tierB_link_pushes.
Qed.

Lemma tierB_rows :
  tierB = querySelectorAll document "h1,h2,h3,strong,b,li" ≫= section_rows.
Proof.
  unfold tierB. rewrite (fold_left_push _ section_rows); [done|].
  apply tierB_section_pushes.
Qed.

End ScriptFacts.

Lemma nonempty_true (s : string) : Str.nonempty s = true <-> s <> EmptyString.
Proof. destruct s; simpl; split; intros; congruence. Qed.

Lemma nonempty_false (s : string) : Str.nonempty s = false <-> s = EmptyString.
Proof. destruct s; simpl; split; intros; congruence. Qed.

Section ScriptClaims.
Import Str Js.
Context {Node : Type} `{Dom Node}.

(** C1. The extraction strategy is chosen once per document. With at least
    one element of class [tax-list-entity-title] the script returns exactly
    the rows of the explicit-markup branch, each pushed by [record] for one
    title element and one file element under it, whatever the heuristic
    branch would have found and also when titles have no file; with no such
    element it returns exactly the rows of the heuristic branch, each
    pushed for an accepted heading and one anchor of its container. *)
Theorem tier_chosen_once_per_document :
  let entities := querySelectorAll document ".tax-list-entity-title" in
  (entities <> [] ->
     script = tierA entities /\
     forall r, r ∈ script ->
       exists titleEl el, titleEl ∈ entities /\ el ∈ file_elements titleEl /\
         record (visible_text titleEl) (Some el) [] = [r])
  /\
  (entities = [] ->
     script = tierB /\
     forall r, r ∈ script ->
       exists s a, s ∈ querySelectorAll document "h1,h2,h3,strong,b,li" /\
         is_heading s = true /\
         a ∈ querySelectorAll (container_of s) "a[href]" /\
         tierB_link (section_text s) [] a = [r]).
Proof.
  intros entities. split; intros He.
  - assert (Hs : script = tierA entities).
    { unfold script. fold entities. destruct entities; [done|reflexivity]. }
    split; [exact Hs|]. intros r. rewrite Hs, tierA_rows.
    intros (t & Hr & Ht)%list_elem_of_bind.
    apply list_elem_of_fmap in Hr as (el & -> & Hel).
    exists t, el. by rewrite record_pushes.
  - assert (Hs : script = tierB).
    { unfold script. fold entities. by rewrite He. }
    split; [exact Hs|]. intros r. rewrite Hs, tierB_rows.
    intros (s & Hr & Hsec)%list_elem_of_bind.
    unfold section_rows in Hr. destruct (is_heading s) eqn:Hh.
    + apply list_elem_of_bind in Hr as (a & Hr & Ha).
      exists s, a. repeat split; try done.
      unfold link_rows in *. unfold tierB_link in *.
      destruct (negb _); [by apply elem_of_nil in Hr|].
      destruct (startswith _ _); [by apply elem_of_nil in Hr|].
      simpl in *. apply list_elem_of_singleton in Hr. by subst.
    + by apply elem_of_nil in Hr.
Qed.

(** C6, as the code has it. [record] pushes one row. Its title is null
    exactly when the title text is empty before trimming, and otherwise the
    trimmed text, so a title of blanks gives the empty string; its label is
    null exactly when the text of the file element is empty or undefined,
    and otherwise the trimmed text, so a label of blanks gives the empty
    string as well. *)
Theorem record_null_versus_empty (title : string) (el : Node) (out : list Row) :
  exists row, record title (Some el) out = out ++ [row] /\
    (tax_list_entity_title row = None <-> title = EmptyString) /\
    (title <> EmptyString -> tax_list_entity_title row = Some (js_trim title)) /\
    (tax_list_file row = None <-> truthy (file_text el) = false) /\
    (forall t, file_text el = Some t -> t <> EmptyString ->
       tax_list_file row = Some (js_trim t)) /\
    (forall t, file_text el = Some t -> t <> EmptyString ->
       js_trim t = EmptyString -> tax_list_file row = Some EmptyString).
Proof.
  exists (record_row title el). split; [apply record_pushes|].
  unfold record_row; simpl. repeat split.
  - destruct title; simpl; congruence.
  - intros ->. done.
  - intros Ht. by apply nonempty_true in Ht as ->.
  - destruct (file_text el) as [[|c t]|]; simpl; congruence.
  - destruct (file_text el) as [[|c t]|]; simpl; congruence.
  - intros t -> Ht. apply nonempty_true in Ht. simpl. by rewrite Ht.
  - intros t -> Ht Hb. apply nonempty_true in Ht. simpl. by rewrite Ht, Hb.
Qed.

(** C10. Every row of the heuristic branch carries the trimmed text of its
    heading, which is not empty, as title; the [href] attribute of its
    anchor, which is neither null nor empty and does not start with [#];
    and as label the trimmed visible text of the anchor, or null exactly
    when that text is empty. *)
Theorem tierB_row_shape (r : Row) :
  r ∈ tierB ->
  exists s a h,
    s ∈ querySelectorAll document "h1,h2,h3,strong,b,li" /\
    a ∈ querySelectorAll (container_of s) "a[href]" /\
    tax_list_entity_title r = Some (section_text s) /\
    section_text s <> EmptyString /\
    getAttribute a "href" = Some h /\
    tax_list_file_href r = Some h /\
    h <> EmptyString /\
    startswith "#" h = false /\
    (tax_list_file r = None <-> js_trim (visible_text a) = EmptyString) /\
    (js_trim (visible_text a) <> EmptyString ->
       tax_list_file r = Some (js_trim (visible_text a))).
Proof.
  rewrite tierB_rows. intros (s & Hr & Hs)%list_elem_of_bind.
  unfold section_rows in Hr. destruct (is_heading s) eqn:Hh;
    [|by apply elem_of_nil in Hr].
  apply list_elem_of_bind in Hr as (a & Hr & Ha).
  unfold link_rows, tierB_link in Hr.
  destruct (getAttribute a "href") as [h|] eqn:Hhref; simpl in Hr;
    [|by apply elem_of_nil in Hr].
  destruct (nonempty h) eqn:Hne; simpl in Hr; [|by apply elem_of_nil in Hr].
  destruct (startswith "#" h) eqn:Hsw; [by apply elem_of_nil in Hr|].
  apply list_elem_of_singleton in Hr. subst r. simpl.
  exists s, a, h. repeat split; try done.
  - unfold is_heading in Hh. apply andb_prop in Hh as [Hh _].
    apply andb_prop in Hh as [Hh _]. by apply nonempty_true.
  - by apply nonempty_true.
  - destruct (js_trim (visible_text a)); simpl; congruence.
  - destruct (js_trim (visible_text a)); simpl; congruence.
  - destruct (js_trim (visible_text a)); simpl; congruence.
Qed.

End ScriptClaims.

(** On [bare_title_page] the only title has no file: the script returns
    nothing, although the heuristic branch alone would return a row. *)
Lemma tier_chosen_witness :
  @Js.script nat Pages.bare_title_page = [] /\
  @Js.tierB nat Pages.bare_title_page <> [].
Proof.
  destruct (@tier_chosen_once_per_document nat Pages.bare_title_page)
    as [HA _].
  destruct HA as [HA _]; [vm_compute; discriminate|].
  rewrite HA. split; vm_compute; [reflexivity|discriminate].
Defined.

(** C6 as stated fails: on [blank_page] the title text is two blanks, empty
    after trimming, and the row's title is the empty string, not null. *)
Lemma blank_title_is_empty_string_not_null :
  Str.js_trim (@Js.visible_text nat Pages.blank_page 2%nat) = EmptyString /\
  @Js.script nat Pages.blank_page =
    [mkRow (Some EmptyString) (Some EmptyString) (Some "/a.pdf");
     mkRow (Some EmptyString) None (Some EmptyString)] /\
  tax_list_entity_title <$> @Js.script nat Pages.blank_page
    <> [None; None].
Proof. repeat split. vm_compute. discriminate. Qed.

Lemma record_null_versus_empty_witness :
  exists row,
    @Js.record nat Pages.blank_page "  " (Some 3%nat) [] = [] ++ [row] /\
    tax_list_entity_title row = Some EmptyString /\
    tax_list_file row = Some EmptyString.
Proof.
  destruct (@record_null_versus_empty nat Pages.blank_page "  " 3%nat [])
    as (row & Hrow & _ & Ht & _ & _ & Hl).
  exists row. split; [exact Hrow|]. split.
  - apply Ht. discriminate.
  - apply (Hl " "); [reflexivity|discriminate|reflexivity].
Defined.

Lemma tierB_row_shape_witness :
  exists s a h,
    s ∈ @Js.querySelectorAll nat Pages.heading_page 0%nat "h1,h2,h3,strong,b,li" /\
    a ∈ @Js.querySelectorAll nat Pages.heading_page
          (@Js.container_of nat Pages.heading_page s) "a[href]" /\
    @Js.getAttribute nat Pages.heading_page a "href" = Some h /\
    h <> EmptyString /\ Str.startswith "#" h = false.
Proof.
  destruct (@tierB_row_shape nat Pages.heading_page
              (mkRow (Some "Smith County Sale List List") None
                     (Some "files/b.docx")))
    as (s & a & h & Hs & Ha & _ & _ & Hh & _ & Hne & Hsw & _).
  - vm_compute. apply list_elem_of_In. right. left. reflexivity.
  - exists s, a, h. repeat split; assumption.
Defined.

(** ** Browser lifecycle *)

Section Lifecycle.
Import Engine.

Lemma start_started (s : Scraper) : is_Some (_browser (start s)).
Proof. destruct s as [h p [b|] l f]; unfold start; simpl; eauto. Qed.

Lemma stop_stopped (s : Scraper) :
  _browser (stop s) = None /\ _pw (stop s) = None.
Proof.
  destruct s as [h [p|] [b|] l f]; unfold stop; simpl; auto.
Qed.


(** C8. [start] on a scraper whose browser is running, and [stop] on a
    scraper that holds neither a browser nor a Playwright handle, return
    the scraper as it was: no field changes and nothing is asked of
    Playwright. Hence a second [start] or [stop] in a row does nothing. *)
Theorem start_stop_idempotent (s : Scraper) :
  (is_Some (_browser s) -> start s = s) /\
  (_browser s = None -> _pw s = None -> stop s = s) /\
  start (start s) = start s /\
  stop (stop s) = stop s.
Proof.
  assert (Hstart : forall t, is_Some (_browser t) -> start t = t).
  { intros t [b Hb]. unfold start. by rewrite Hb. }
  assert (Hstop : forall t, _browser t = None -> _pw t = None -> stop t = t).
  { intros t Hb Hp. unfold stop. rewrite Hb, Hp. done. }
  repeat split; auto.
  - apply Hstart, start_started.
  - apply Hstop; apply stop_stopped.
Qed.

End Lifecycle.

Lemma start_stop_idempotent_witness :
  let running := Engine.start Pages.new_scraper in
  Engine.start running = running /\
  Engine.log running = [Engine.PlaywrightStart 0; Engine.ChromiumLaunch 0 1 true] /\
  Engine.stop Pages.new_scraper = Pages.new_scraper.
Proof.
  intros running.
  destruct (start_stop_idempotent running) as (Hstart & _ & _ & _).
  destruct (start_stop_idempotent Pages.new_scraper) as (_ & Hstop & _ & _).
  split; [apply Hstart; vm_compute; eauto|].
  split; [reflexivity|]. apply Hstop; reflexivity.
Defined.

(** ** Duplicate removal *)

Lemma mapM_Ok {A B : Type} (f : A -> result B) (l : list A) (l' : list B) :
  mapM f l = Ok l' ->
  List.length l' = List.length l /\
  forall i x, l !! i = Some x -> exists y, l' !! i = Some y /\ f x = Ok y.
Proof.
  revert l'. induction l as [|a l IH]; intros l'; simpl.
  - intros [= <-]. split; [done|]. intros i x Hx. by destruct i.
  - destruct (f a) as [b|e] eqn:Hfa; simpl; [|discriminate].
    destruct (mapM f l) as [bs|e]; simpl; [|discriminate].
    intros [= <-]. destruct (IH bs eq_refl) as [Hlen Hnth].
    split; [simpl; congruence|].
    intros [|i] x Hx; simpl in *.
    + injection Hx as ->. eauto.
    + eauto.
Qed.

Lemma mapM_elem_of {A B : Type} (f : A -> result B) (l : list A) (l' : list B) y :
  mapM f l = Ok l' -> y ∈ l' -> exists x, x ∈ l /\ f x = Ok y.
Proof.
  revert l'. induction l as [|a l IH]; intros l'; simpl.
  - intros [= <-] Hy. by apply elem_of_nil in Hy.
  - destruct (f a) as [b|e] eqn:Hfa; simpl; [|discriminate].
    destruct (mapM f l) as [bs|e]; simpl; [|discriminate].
    intros [= <-] [->|Hy]%elem_of_cons.
    + exists a. split; [left|done].
    + destruct (IH bs eq_refl Hy) as (x & Hx & Hfx).
      exists x. split; [by right|done].
Qed.

Section SeenSets.
Context {K : Type} `{Countable K}.

Lemma seen_absorbs (k : K) (seen more : gset K) :
  k ∈ seen -> seen ∪ more = seen ∪ ({[k]} ∪ more).
Proof. set_solver. Qed.

Lemma seen_extends (k : K) (seen more : gset K) :
  {[k]} ∪ seen ∪ more = seen ∪ ({[k]} ∪ more).
Proof. set_solver. Qed.

Lemma keys_snoc (k : K) (ks : list K) :
  {[k]} ∪ list_to_set ks =@{gset K} list_to_set (ks ++ [k]).
Proof. set_solver. Qed.

Lemma keys_snoc_seen (k : K) (ks : list K) :
  k ∈ ks -> list_to_set ks =@{gset K} list_to_set (ks ++ [k]).
Proof. set_solver. Qed.

End SeenSets.

Section Dedup.
Import Engine.
Variable ok : string -> bool.

Lemma clean_loop_keep_unseen rows seen cleaned :
  clean_loop ok rows seen cleaned =
    (canon ← mapM (absolutize ok) rows; Ok (cleaned ++ keep_unseen seen canon)).
Proof.
  revert seen cleaned. induction rows as [|r rows IH]; intros seen cleaned; simpl.
  - by rewrite app_nil_r.
  - destruct (absolutize ok r) as [r'|e]; simpl; [|done].
    destruct (bool_decide (key_of r' ∈ seen)) eqn:Hin; rewrite IH;
      destruct (mapM (absolutize ok) rows) as [canon|e]; simpl; try done;
      rewrite Hin; [done|]. by rewrite <- (assoc_L (++)).
Qed.

Lemma clean_rows_keep_unseen rows :
  clean_rows ok rows =
    (canon ← mapM (absolutize ok) rows; Ok (keep_unseen ∅ canon)).
Proof. unfold clean_rows. by rewrite clean_loop_keep_unseen. Qed.

Lemma keep_unseen_not_seen seen l r :
  r ∈ keep_unseen seen l -> (key_of r ∉ seen) /\ (r ∈ l).
Proof.
  revert seen. induction l as [|a l IH]; intros seen; simpl.
  - intros Hr. by apply elem_of_nil in Hr.
  - case_bool_decide as Hin.
    + intros Hr. destruct (IH _ Hr). split; [done|by right].
    + intros [->|Hr]%elem_of_cons; [split; [done|left]|].
      destruct (IH _ Hr) as [Hns Hl]. split; [|by right].
      intros Hs. apply Hns. by apply elem_of_union_r.
Qed.

Lemma keep_unseen_NoDup seen l : NoDup (key_of <$> keep_unseen seen l).
Proof.
  revert seen. induction l as [|a l IH]; intros seen; simpl.
  - constructor.
  - case_bool_decide as Hin; [apply IH|].
    rewrite fmap_cons. constructor; [|apply IH].
    intros (r & Hk & Hr)%list_elem_of_fmap.
    destruct (keep_unseen_not_seen _ _ _ Hr) as [Hns _].
    apply Hns. rewrite <- Hk. apply elem_of_union_l. by apply elem_of_singleton.
Qed.

Lemma keep_unseen_sublist seen l : keep_unseen seen l `sublist_of` l.
Proof.
  revert seen. induction l as [|a l IH]; intros seen; simpl.
  - constructor.
  - case_bool_decide; [apply sublist_cons|apply sublist_skip]; apply IH.
Qed.

Lemma keep_unseen_app seen a b :
  keep_unseen seen (a ++ b) =
    keep_unseen seen a ++ keep_unseen (seen ∪ list_to_set (key_of <$> a)) b.
Proof.
  revert seen. induction a as [|x a IH]; intros seen; simpl.
  - by rewrite (right_id_L ∅ (∪)).
  - case_bool_decide as Hin; rewrite IH; simpl.
    + do 2 f_equal. by apply seen_absorbs.
    + do 3 f_equal. apply seen_extends.
Qed.

Lemma omap_cons_eq {A B : Type} (f : A -> option B) (x : A) (l : list A) :
  omap f (x :: l) =
    match f x with Some y => y :: omap f l | None => omap f l end.
Proof. reflexivity. Qed.

Lemma keep_unseen_first_occurrences pre rest :
  keep_unseen (list_to_set (key_of <$> pre)) rest =
    omap (fun i => if Spec.is_first_occurrence (pre ++ rest) i
                   then (pre ++ rest) !! i else None)
         (seq (List.length pre) (List.length rest)).
Proof.
  revert pre. induction rest as [|r rest IH]; intros pre; [done|].
  cbn [keep_unseen List.length seq]. rewrite omap_cons_eq.
  assert (Hlook : (pre ++ r :: rest) !! List.length pre = Some r)
    by apply list_lookup_middle, eq_refl.
  unfold Spec.is_first_occurrence at 1. rewrite Hlook.
  change (@List.firstn Row) with (@take Row). rewrite take_app_length.
  specialize (IH (pre ++ [r])).
  rewrite <- (assoc_L (++)), length_app, Nat.add_1_r in IH. simpl in IH.
  rewrite fmap_app in IH. simpl in IH.
  destruct (decide (key_of r ∈ key_of <$> pre)) as [Hin|Hin].
  - rewrite bool_decide_eq_true_2 by (by apply elem_of_list_to_set).
    rewrite bool_decide_eq_false_2 by tauto.
    rewrite <- IH. f_equal. by apply keys_snoc_seen.
  - rewrite bool_decide_eq_false_2 by (by rewrite elem_of_list_to_set).
    rewrite bool_decide_eq_true_2 by done.
    rewrite <- IH. f_equal. f_equal. apply keys_snoc.
Qed.

Lemma keep_unseen_empty_first_occurrences l :
  keep_unseen ∅ l = Spec.first_occurrences l.
Proof. apply (keep_unseen_first_occurrences [] l). Qed.

(** If every URL resolves, [_extract_js] returns. *)
Lemma clean_rows_returns rows canon :
  mapM (absolutize ok) rows = Ok canon ->
  clean_rows ok rows = Ok (Spec.first_occurrences canon).
Proof.
  intros Hc. rewrite clean_rows_keep_unseen, Hc. simpl.
  by rewrite keep_unseen_empty_first_occurrences.
Qed.

Lemma clean_rows_inv rows out :
  clean_rows ok rows = Ok out ->
  exists canon,
    mapM (absolutize ok) rows = Ok canon /\
    NoDup (key_of <$> out) /\
    out = Spec.first_occurrences canon.
Proof.
  rewrite clean_rows_keep_unseen.
  destruct (mapM (absolutize ok) rows) as [canon|e]; simpl; [|discriminate].
  intros [= <-]. exists canon. split; [done|].
  split; [apply keep_unseen_NoDup|apply keep_unseen_empty_first_occurrences].
Qed.

(** C2. The rows [_extract_js] returns have pairwise different keys, and
    they are the canonicalized input rows restricted, in the original
    order, to the first occurrence of each key. *)
Theorem raw_rows_are_first_occurrences (rows out : list Row) :
  clean_rows ok rows = Ok out ->
  exists canon,
    mapM (absolutize ok) rows = Ok canon /\
    NoDup (key_of <$> out) /\
    (forall i j r1 r2, out !! i = Some r1 -> out !! j = Some r2 ->
       key_of r1 = key_of r2 -> i = j) /\
    out `sublist_of` canon /\
    out = Spec.first_occurrences canon.
Proof.
  intros (canon & Hc & Hnd & Hfirst)%clean_rows_inv.
  exists canon. split; [done|]. split; [done|]. split; [|split].
  - intros i j r1 r2 Hi Hj Hk.
    eapply NoDup_lookup; [exact Hnd| |].
    + rewrite list_lookup_fmap, Hi. reflexivity.
    + rewrite list_lookup_fmap, Hj. simpl. by rewrite Hk.
  - rewrite Hfirst, <- keep_unseen_empty_first_occurrences.
    apply keep_unseen_sublist.
  - done.
Qed.

Lemma differ_only_null_vs_empty_key r1 r2 :
  Spec.differ_only_null_vs_empty r1 r2 -> key_of r1 = key_of r2 /\ r1 <> r2.
Proof.
  destruct r1 as [t1 l1 h1], r2 as [t2 l2 h2]. unfold key_of. simpl.
  intros [(Hn & ? & ?)|[(? & Hn & ?)|(? & ? & Hn)]]; simpl in *; subst;
    destruct Hn as [[-> ->]|[-> ->]]; split; simpl; congruence.
Qed.

(** C7. Two records that differ only in one field, null in one and the
    empty string in the other, have the same key; so the returned rows
    never hold both, and where both occur among the canonicalized rows the
    later occurrence is not a first occurrence: the result is the same as
    without it. *)
Theorem null_and_empty_collapse (rows canon out : list Row) (r1 r2 : Row) :
  mapM (absolutize ok) rows = Ok canon ->
  clean_rows ok rows = Ok out ->
  Spec.differ_only_null_vs_empty r1 r2 ->
  key_of r1 = key_of r2 /\
  ~ (r1 ∈ out /\ r2 ∈ out) /\
  forall l1 l2 l3, canon = l1 ++ r1 :: l2 ++ r2 :: l3 ->
    Spec.is_first_occurrence canon (List.length (l1 ++ r1 :: l2)) = false /\
    out = Spec.first_occurrences (l1 ++ r1 :: l2 ++ l3).
Proof.
  intros Hc Hout Hd.
  destruct (differ_only_null_vs_empty_key r1 r2 Hd) as [Hk Hne].
  destruct (clean_rows_inv rows out Hout) as (canon' & Hc' & Hnd & Hfirst).
  rewrite Hc in Hc'. injection Hc' as <-.
  split; [done|]. split.
  - intros [(i & Hi)%list_elem_of_lookup (j & Hj)%list_elem_of_lookup].
    assert (i = j) as ->.
    { eapply NoDup_lookup; [exact Hnd| |].
      - rewrite list_lookup_fmap, Hi. reflexivity.
      - rewrite list_lookup_fmap, Hj. simpl. by rewrite Hk. }
    congruence.
  - intros l1 l2 l3 ->. split.
    + unfold Spec.is_first_occurrence.
      replace (l1 ++ r1 :: l2 ++ r2 :: l3) with ((l1 ++ r1 :: l2) ++ r2 :: l3)
        by (by rewrite <- (assoc_L (++))).
      rewrite list_lookup_middle by done.
      change (@List.firstn Row) with (@take Row). rewrite take_app_length.
      apply bool_decide_eq_false. intros Hn. apply Hn.
      rewrite <- Hk, fmap_app, fmap_cons.
      apply elem_of_app. right. left.
    + rewrite Hfirst, <- !keep_unseen_empty_first_occurrences.
      replace (l1 ++ r1 :: l2 ++ r2 :: l3) with ((l1 ++ r1 :: l2) ++ r2 :: l3)
        by (by rewrite <- (assoc_L (++))).
      replace (l1 ++ r1 :: l2 ++ l3) with ((l1 ++ r1 :: l2) ++ l3)
        by (by rewrite <- (assoc_L (++))).
      rewrite !keep_unseen_app. f_equal. simpl.
      rewrite bool_decide_eq_true_2; [done|].
      apply elem_of_union_r, elem_of_list_to_set.
      rewrite <- Hk, fmap_app, fmap_cons.
      apply elem_of_app. right. left.
Qed.

End Dedup.

(** On [heading_page] two links differ only in their fragment: after
    canonicalization they share a key and the second goes. *)
Lemma raw_rows_are_first_occurrences_witness :
  exists canon,
    mapM (Engine.absolutize Pages.no_brackets) (@Js.script nat Pages.heading_page)
      = Ok canon /\
    List.length canon = 3%nat /\
    Spec.first_occurrences canon =
      [mkRow (Some "Smith County Sale List List") (Some "List")
             (Some "https://www.pbfcm.com/files/a.pdf");
       mkRow (Some "Smith County Sale List List") None
             (Some "https://www.pbfcm.com/files/b.docx")].
Proof.
  destruct (raw_rows_are_first_occurrences Pages.no_brackets
              (@Js.script nat Pages.heading_page)
              [mkRow (Some "Smith County Sale List List") (Some "List")
                     (Some "https://www.pbfcm.com/files/a.pdf");
               mkRow (Some "Smith County Sale List List") None
                     (Some "https://www.pbfcm.com/files/b.docx")])
    as (canon & Hc & _ & _ & _ & Hfirst).
  - vm_compute. reflexivity.
  - exists canon. split; [exact Hc|]. split; [|symmetry; exact Hfirst].
    vm_compute in Hc. injection Hc as <-. reflexivity.
Defined.

Lemma null_and_empty_collapse_witness :
  let r1 := mkRow None (Some "Notice") (Some "https://www.pbfcm.com/a.pdf") in
  let r2 := mkRow (Some EmptyString) (Some "Notice")
              (Some "https://www.pbfcm.com/a.pdf") in
  Engine.clean_rows Pages.no_brackets
    [mkRow None (Some "Notice") (Some "/a.pdf");
     mkRow (Some EmptyString) (Some "Notice") (Some "/a.pdf#x")] = Ok [r1] /\
  Engine.key_of r1 = Engine.key_of r2 /\
  ~ (r1 ∈ [r1] /\ r2 ∈ [r1]).
Proof.
  intros r1 r2.
  destruct (null_and_empty_collapse Pages.no_brackets
              [mkRow None (Some "Notice") (Some "/a.pdf");
               mkRow (Some EmptyString) (Some "Notice") (Some "/a.pdf#x")]
              [r1; r2] [r1] r1 r2) as (Hk & Hboth & _).
  - vm_compute. reflexivity.
  - vm_compute. reflexivity.
  - left. simpl. split; [left; split; reflexivity|]. split; reflexivity.
  - split; [vm_compute; reflexivity|]. split; [exact Hk|exact Hboth].
Defined.

(** ** Suffixes *)

Section Suffix.
Import Str.

Lemma drop_drop (m n : nat) (s : string) : drop n (drop m s) = drop (m + n) s.
Proof.
  revert s. induction m as [|m IH]; intros s; simpl; [done|].
  destruct s as [|c s]; simpl; [by destruct n|apply IH].
Qed.

Lemma endswith_true (suf s : string) :
  endswith suf s = true <->
  (String.length suf <= String.length s)%nat /\
  drop (String.length s - String.length suf) s = suf.
Proof.
  unfold endswith. rewrite andb_true_iff, Nat.leb_le, String.eqb_eq. done.
Qed.

(** Of two suffixes of one string the shorter is a suffix of the longer. *)
Lemma endswith_nested (a b s : string) :
  endswith a s = true -> endswith b s = true ->
  (String.length a <= String.length b)%nat -> endswith a b = true.
Proof.
  intros [Hla Ha]%endswith_true [Hlb Hb]%endswith_true Hab.
  apply endswith_true. split; [done|].
  rewrite <- Hb at 2. rewrite drop_drop.
  transitivity (drop (String.length s - String.length a) s); [f_equal; lia|done].
Qed.

Lemma endswith_excludes (a b s : string) :
  endswith a s = true ->
  (String.length a <= String.length b)%nat -> endswith a b = false ->
  endswith b s = false.
Proof.
  intros Ha Hab Hn. destruct (endswith b s) eqn:Hb; [|done].
  by rewrite (endswith_nested a b s Ha Hb Hab) in Hn.
Qed.

Lemma endswith_excluded (a b s : string) :
  endswith b s = true ->
  (String.length a <= String.length b)%nat -> endswith a b = false ->
  endswith a s = false.
Proof.
  intros Hb Hab Hn. destruct (endswith a s) eqn:Ha; [|done].
  by rewrite (endswith_nested a b s Ha Hb Hab) in Hn.
Qed.

End Suffix.

(** ** Facts about strings *)

Section StrFacts.
Import Str.

Lemma append_cons (c : ascii) (s t : string) :
  String c s +:+ t = String c (s +:+ t).
Proof. reflexivity. Qed.

Lemma append_nil_l (t : string) : EmptyString +:+ t = t.
Proof. reflexivity. Qed.


Lemma append_assoc (a b c : string) : (a +:+ b) +:+ c = a +:+ (b +:+ c).
Proof.
  induction a as [|x a IH]; [done|]. by rewrite ?append_cons, IH.
Qed.

Lemma exists_chars_app (p : ascii -> bool) (a b : string) :
  exists_chars p (a +:+ b) = exists_chars p a || exists_chars p b.
Proof.
  induction a as [|x a IH]; [done|].
  rewrite ?append_cons. simpl. by rewrite IH, orb_assoc.
Qed.

Lemma contains_app (c : ascii) (a b : string) :
  contains c (a +:+ b) = contains c a || contains c b.
Proof. apply exists_chars_app. Qed.

Lemma sub_chars_refl (s : string) : sub_chars s s.
Proof. by intros p. Qed.

Lemma sub_chars_trans (a b c : string) :
  sub_chars a b -> sub_chars b c -> sub_chars a c.
Proof. intros Hab Hbc p Hp. by apply Hbc, Hab. Qed.

Lemma sub_chars_cons (x : ascii) (a b : string) :
  sub_chars a b -> sub_chars (String x a) (String x b).
Proof.
  intros Hab p. simpl. intros [Hx|Ha]%orb_prop; [by rewrite Hx|].
  by rewrite (Hab p Ha), orb_true_r.
Qed.

Lemma sub_chars_skip (x : ascii) (a b : string) :
  sub_chars a b -> sub_chars a (String x b).
Proof. intros Hab p Hp. simpl. by rewrite (Hab p Hp), orb_true_r. Qed.

Lemma sub_chars_nil (b : string) : sub_chars EmptyString b.
Proof. intros p. simpl. discriminate. Qed.

Lemma sub_chars_without (c : ascii) (a b : string) :
  sub_chars a b -> contains c b = false -> contains c a = false.
Proof.
  unfold contains. intros Hab Hb.
  destruct (exists_chars (Ascii.eqb c) a) eqn:Ha; [|done].
  by rewrite (Hab _ Ha) in Hb.
Qed.

Lemma sub_chars_lstrip (p : ascii -> bool) (s : string) :
  sub_chars (lstrip_by p s) s.
Proof.
  induction s as [|c s IH]; simpl; [apply sub_chars_refl|].
  destruct (p c); [by apply sub_chars_skip|apply sub_chars_refl].
Qed.

Lemma sub_chars_rstrip (p : ascii -> bool) (s : string) :
  sub_chars (rstrip_by p s) s.
Proof.
  induction s as [|c s IH]; simpl; [apply sub_chars_refl|].
  destruct (rstrip_by p s) as [|d t] eqn:Hr.
  - destruct (p c); [apply sub_chars_nil|].
    apply sub_chars_cons, sub_chars_nil.
  - by apply sub_chars_cons.
Qed.

Lemma sub_chars_strip (p : ascii -> bool) (s : string) :
  sub_chars (strip_by p s) s.
Proof.
  eapply sub_chars_trans; [apply sub_chars_rstrip|apply sub_chars_lstrip].
Qed.

Lemma sub_chars_remove_char (c : ascii) (s : string) :
  sub_chars (remove_char c s) s.
Proof.
  induction s as [|a s IH]; simpl; [apply sub_chars_refl|].
  destruct (Ascii.eqb a c); [by apply sub_chars_skip|by apply sub_chars_cons].
Qed.

Lemma sub_chars_take (n : nat) (s : string) : sub_chars (take n s) s.
Proof.
  revert s. induction n as [|n IH]; intros [|c s]; simpl;
    try apply sub_chars_nil. apply sub_chars_cons, IH.
Qed.

Lemma sub_chars_drop (n : nat) (s : string) : sub_chars (drop n s) s.
Proof.
  revert s. induction n as [|n IH]; intros [|c s]; simpl;
    try apply sub_chars_refl. apply sub_chars_skip, IH.
Qed.

Lemma sub_chars_split1 (c : ascii) (s : string) :
  sub_chars (split1 c s).1 s /\ sub_chars (split1 c s).2 s.
Proof.
  induction s as [|a s [IHl IHr]]; simpl; [split; apply sub_chars_refl|].
  destruct (Ascii.eqb a c); simpl.
  - split; [apply sub_chars_nil|apply sub_chars_skip, sub_chars_refl].
  - destruct (split1 c s) as [l r]; simpl in *.
    split; [by apply sub_chars_cons|by apply sub_chars_skip].
Qed.

Lemma split1_before (c : ascii) (s : string) :
  contains c (split1 c s).1 = false.
Proof.
  induction s as [|a s IH]; simpl; [done|].
  destruct (Ascii.eqb a c) eqn:Hac; simpl; [done|].
  destruct (split1 c s) as [l r]; simpl in *.
  unfold contains in *. simpl. by rewrite Ascii.eqb_sym, Hac, IH.
Qed.

Lemma find_None (c : ascii) (s : string) :
  find c s = None -> contains c s = false.
Proof.
  induction s as [|a s IH]; simpl; [done|]. unfold contains. simpl.
  rewrite (Ascii.eqb_sym c a). destruct (Ascii.eqb a c); [discriminate|].
  destruct (find c s); [discriminate|]. intros _. by apply IH.
Qed.

Lemma find_Some_take (c : ascii) (s : string) (i n : nat) :
  find c s = Some i -> (n <= i)%nat -> contains c (take n s) = false.
Proof.
  revert i n. induction s as [|a s IH]; intros i n; simpl; [discriminate|].
  destruct (Ascii.eqb a c) eqn:Hac.
  - intros [= <-] Hn. by replace n with 0%nat by lia.
  - destruct (find c s) as [j|] eqn:Hj; simpl; [|discriminate].
    intros [= <-] Hn. destruct n as [|n]; simpl; [done|].
    unfold contains in *. simpl. rewrite Ascii.eqb_sym, Hac. simpl.
    apply (IH j); [done|lia].
Qed.

Lemma find_Some_split (c : ascii) (s : string) (i : nat) :
  find c s = Some i -> s = take i s +:+ String c (drop (S i) s).
Proof.
  revert i. induction s as [|a s IH]; intros i; simpl; [discriminate|].
  destruct (Ascii.eqb a c) eqn:Hac.
  - intros [= <-]. simpl. apply Ascii.eqb_eq in Hac as ->.
    by destruct s.
  - destruct (find c s) as [j|] eqn:Hj; simpl; [|discriminate].
    intros [= <-]. simpl. rewrite ?append_cons. f_equal.
    rewrite (IH j eq_refl) at 1. by destruct s.
Qed.

Lemma find_app_fresh (c : ascii) (s rest : string) :
  contains c s = false ->
  find c (s +:+ String c rest) = Some (String.length s).
Proof.
  induction s as [|a s IH]; simpl.
  - intros _. by rewrite Ascii.eqb_refl.
  - unfold contains. simpl. rewrite ?append_cons. simpl.
    rewrite (Ascii.eqb_sym c a). destruct (Ascii.eqb a c); [discriminate|].
    simpl. intros Hs. unfold contains in IH. by rewrite (IH Hs).
Qed.

Lemma take_app_length (s t : string) : take (String.length s) (s +:+ t) = s.
Proof.
  induction s as [|a s IH]; simpl; [by destruct t|].
  by rewrite ?append_cons, IH.
Qed.

Lemma drop_app_length (s t : string) : drop (String.length s) (s +:+ t) = t.
Proof. induction s as [|a s IH]; simpl; [done|]. by rewrite ?append_cons. Qed.

Lemma forall_chars_without (p : ascii -> bool) (c : ascii) (s : string) :
  p c = false -> forall_chars p s = true -> contains c s = false.
Proof.
  intros Hc. induction s as [|a s IH]; simpl; [done|].
  intros [Ha Hs]%andb_prop. unfold contains in *. simpl.
  rewrite (IH Hs), orb_false_r.
  destruct (Ascii.eqb c a) eqn:Hca; [|done].
  apply Ascii.eqb_eq in Hca as ->. congruence.
Qed.

Lemma forall_chars_take (p : ascii -> bool) (n : nat) (s : string) :
  forall_chars p s = true -> forall_chars p (take n s) = true.
Proof.
  revert s. induction n as [|n IH]; intros [|a s]; simpl; try done.
  intros [Ha Hs]%andb_prop. by rewrite Ha, IH.
Qed.

Lemma forall_chars_map (p : ascii -> bool) (f : ascii -> ascii) (s : string) :
  (forall c, p c = true -> p (f c) = true) ->
  forall_chars p s = true -> forall_chars p (map_chars f s) = true.
Proof.
  intros Hf. induction s as [|a s IH]; simpl; [done|].
  intros [Ha Hs]%andb_prop. by rewrite (Hf a Ha), IH.
Qed.

Lemma map_chars_fixed (p : ascii -> bool) (f : ascii -> ascii) (s : string) :
  (forall c, p c = true -> f c = c) ->
  forall_chars p s = true -> map_chars f s = s.
Proof.
  intros Hf. induction s as [|a s IH]; simpl; [done|].
  intros [Ha Hs]%andb_prop. by rewrite (Hf a Ha), IH.
Qed.

Lemma remove_char_app (c : ascii) (a b : string) :
  remove_char c (a +:+ b) = remove_char c a +:+ remove_char c b.
Proof.
  induction a as [|x a IH]; [done|]. rewrite ?append_cons. simpl.
  destruct (Ascii.eqb x c); [done|]. by rewrite ?append_cons, IH.
Qed.

Lemma remove_char_absent (c : ascii) (s : string) :
  contains c s = false -> remove_char c s = s.
Proof.
  induction s as [|a s IH]; simpl; [done|]. unfold contains in *. simpl.
  rewrite (Ascii.eqb_sym c a). destruct (Ascii.eqb a c); [discriminate|].
  simpl. intros Hs. by rewrite IH.
Qed.

Lemma prefix_nil (s : string) : String.prefix EmptyString s = true.
Proof. by destruct s. Qed.

Lemma startswith_split (pre s : string) :
  startswith pre s = true -> s = pre +:+ drop (String.length pre) s.
Proof.
  unfold startswith. revert s.
  induction pre as [|a pre IH]; intros s; simpl.
  - intros _. by destruct s.
  - destruct s as [|b s]; simpl; [discriminate|].
    destruct (ascii_dec a b) as [->|]; [|discriminate].
    intros Hp. rewrite ?append_cons. f_equal. by apply IH.
Qed.

Lemma startswith_app (pre s t : string) :
  startswith pre s = true -> startswith pre (s +:+ t) = true.
Proof.
  unfold startswith. revert s.
  induction pre as [|a pre IH]; intros s; simpl.
  - by destruct (s +:+ t).
  - destruct s as [|b s]; simpl; [discriminate|]. rewrite ?append_cons.
    destruct (ascii_dec a b) as [->|]; [|discriminate]. apply IH.
Qed.

Lemma startswith_self_app (pre t : string) : startswith pre (pre +:+ t) = true.
Proof.
  unfold startswith. induction pre as [|a pre IH]; simpl.
  - by destruct (EmptyString +:+ t).
  - rewrite ?append_cons. by destruct (ascii_dec a a).
Qed.

Lemma take_eq_startswith (n : nat) (pre s : string) :
  take n s = pre -> startswith pre s = true.
Proof.
  unfold startswith. intros <-. revert s.
  induction n as [|n IH]; intros [|a s]; simpl; try done.
  destruct (ascii_dec a a); [apply IH|done].
Qed.

End StrFacts.

(** ** Facts about [urllib.parse] *)

Section UrlFacts.
Import Str Urllib.
Variable ok : string -> bool.

Ltac each_char c :=
  destruct c as [[] [] [] [] [] [] [] []]; vm_compute; intros; congruence.

Lemma scheme_char_lower (c : ascii) :
  scheme_char c = true -> scheme_char (lower_char c) = true.
Proof. each_char c. Qed.

Lemma scheme_char_lower_fixed (c : ascii) :
  scheme_char (lower_char c) = true -> scheme_char c = true ->
  lower_char (lower_char c) = lower_char c.
Proof. each_char c. Qed.

Lemma alpha_lower (c : ascii) :
  is_ascii_alpha c = true -> is_ascii_alpha (lower_char c) = true.
Proof. each_char c. Qed.

Lemma alpha_not_stripped (c : ascii) :
  is_ascii_alpha c = true -> c0_control_or_space c = false.
Proof. each_char c. Qed.

Lemma lower_lower (s : string) :
  forall_chars scheme_char s = true -> py_lower (py_lower s) = py_lower s.
Proof.
  unfold py_lower. induction s as [|a s IH]; simpl; [done|].
  intros [Ha Hs]%andb_prop.
  rewrite scheme_char_lower_fixed, IH; auto using scheme_char_lower.
Qed.

Lemma valid_scheme_intro (c : ascii) (t : string) :
  is_ascii_alpha c = true -> forall_chars scheme_char (String c t) = true ->
  py_lower (String c t) = String c t ->
  valid_scheme (String c t) = true.
Proof.
  intros Hc Hs Hl. unfold valid_scheme. by rewrite Hc, Hs, Hl, String.eqb_refl.
Qed.

Lemma valid_scheme_lower (c : ascii) (t : string) :
  is_ascii_alpha c = true -> forall_chars scheme_char (String c t) = true ->
  valid_scheme (py_lower (String c t)) = true.
Proof.
  intros Hc Hs.
  change (py_lower (String c t)) with (String (lower_char c) (py_lower t)).
  apply valid_scheme_intro.
  - by apply alpha_lower.
  - change (String (lower_char c) (py_lower t)) with (py_lower (String c t)).
    apply forall_chars_map; [apply scheme_char_lower|done].
  - change (String (lower_char c) (py_lower t)) with (py_lower (String c t)).
    by apply lower_lower.
Qed.

Lemma valid_scheme_parts (s : string) :
  valid_scheme s = true ->
  exists c t, s = String c t /\ is_ascii_alpha c = true /\
    forall_chars scheme_char s = true /\ py_lower s = s.
Proof.
  destruct s as [|c t]; [discriminate|]. unfold valid_scheme.
  intros [[Hc Hs]%andb_prop Hl%String.eqb_eq]%andb_prop. eauto 10.
Qed.

Lemma explicit_scheme_valid (url s rest : string) :
  explicit_scheme url = Some (s, rest) ->
  valid_scheme s = true /\ sub_chars rest url.
Proof.
  unfold explicit_scheme.
  destruct (find ":" url) as [[|i]|] eqn:Hf; try discriminate.
  destruct url as [|c0 url']; [discriminate|].
  destruct (is_ascii_alpha c0 && _) eqn:Hc; [|discriminate].
  apply andb_prop in Hc as [Hc Hs]. intros [= <- <-]. split.
  - apply valid_scheme_lower; [done|]. exact Hs.
  - apply (sub_chars_drop (S (S i)) (String c0 url')).
Qed.

Lemma drop_past (s rest : string) (c : ascii) :
  drop (S (String.length s)) (s +:+ String c rest) = rest.
Proof. induction s as [|a s IH]; simpl; [done|]. exact IH. Qed.

Lemma explicit_scheme_intro (s rest : string) :
  valid_scheme s = true ->
  explicit_scheme (s +:+ String ":" rest) = Some (s, rest).
Proof.
  intros (c & t & -> & Hc & Hs & Hl)%valid_scheme_parts.
  assert (Hcolon : contains ":" (String c t) = false)
    by (by apply (forall_chars_without scheme_char)).
  unfold explicit_scheme. rewrite (find_app_fresh ":" _ rest Hcolon).
  rewrite take_app_length, drop_past, Hs, Hl. simpl. by rewrite Hc.
Qed.

Lemma remove_unsafe_app (a b : string) :
  remove_unsafe (a +:+ b) = remove_unsafe a +:+ remove_unsafe b.
Proof. unfold remove_unsafe. by rewrite !remove_char_app. Qed.

Lemma remove_unsafe_scheme (s : string) :
  forall_chars scheme_char s = true -> remove_unsafe s = s.
Proof.
  intros Hs. unfold remove_unsafe.
  rewrite (remove_char_absent "009" s), (remove_char_absent "013" s),
    (remove_char_absent "010" s); try done;
    by apply (forall_chars_without scheme_char).
Qed.

Lemma clean_url_scheme (s rest : string) :
  valid_scheme s = true ->
  clean_url (s +:+ String ":" rest) = s +:+ String ":" (remove_unsafe rest).
Proof.
  intros (c & t & -> & Hc & Hs & Hl)%valid_scheme_parts.
  unfold clean_url. rewrite append_cons. cbn [lstrip_by].
  rewrite (alpha_not_stripped c Hc), <- append_cons.
  rewrite remove_unsafe_app, (remove_unsafe_scheme _ Hs). done.
Qed.

Lemma has_scheme_intro (s rest : string) :
  valid_scheme s = true -> has_scheme (s +:+ String ":" rest) = true.
Proof.
  intros Hs. unfold has_scheme.
  by rewrite (clean_url_scheme s rest Hs), (explicit_scheme_intro _ _ Hs).
Qed.

Lemma splitnetloc_parts (url netloc rest : string) :
  _splitnetloc url 2 = (netloc, rest) ->
  contains "#" netloc = false /\ sub_chars rest url.
Proof.
  unfold _splitnetloc. cbn [fold_left]. intros [= <- <-].
  split; [|apply sub_chars_drop].
  unfold find_from at 1.
  destruct (find "#" (drop 2 url)) as [i|] eqn:Hf; cbn [fmap option_fmap option_map].
  - eapply find_Some_take; [exact Hf|]. lia.
  - eapply sub_chars_without; [apply sub_chars_take|]. by apply find_None.
Qed.

Lemma split_netloc_parts (url netloc rest : string) :
  split_netloc ok url = Ok (netloc, rest) ->
  contains "#" netloc = false /\ sub_chars rest url.
Proof.
  unfold split_netloc. destruct (startswith "//" url).
  - destruct (_splitnetloc url 2) as [n r] eqn:Hn.
    destruct (_ || _); [discriminate|].
    destruct (_ && _); [discriminate|].
    intros [= <- <-]. by apply splitnetloc_parts.
  - intros [= <- <-]. split; [done|apply sub_chars_refl].
Qed.

Lemma split_fragment_query_parts (scheme netloc url : string) :
  let r := split_fragment_query scheme netloc url in
  s_scheme r = scheme /\ s_netloc r = netloc /\
  contains "#" (s_path r) = false /\ contains "#" (s_query r) = false /\
  contains "?" (s_path r) = false /\
  (contains "#" url = false -> s_fragment r = EmptyString).
Proof.
  unfold split_fragment_query.
  assert (Hfrag : exists u f,
    (if contains "#" url then split1 "#" url else (url, EmptyString)) = (u, f)
    /\ contains "#" u = false
    /\ (contains "#" url = false -> f = EmptyString)).
  { destruct (contains "#" url) eqn:Hh.
    - destruct (split1 "#" url) as [u f] eqn:Hs. exists u, f.
      split; [done|]. split; [|done].
      pose proof (split1_before "#" url) as Hb. by rewrite Hs in Hb.
    - exists url, EmptyString. done. }
  destruct Hfrag as (u & f & -> & Hu & Hf).
  destruct (contains "?" u) eqn:Hq.
  - destruct (split1 "?" u) as [u' q] eqn:Hs. simpl.
    destruct (sub_chars_split1 "?" u) as [Hl Hr]. rewrite Hs in Hl, Hr.
    pose proof (split1_before "?" u) as Hb. rewrite Hs in Hb.
    repeat split; try done; by eapply sub_chars_without.
  - simpl. done.
Qed.

Lemma urlsplit_parts (u d : string) (r : SplitResult) :
  urlsplit ok u d = Ok r ->
  s_scheme r = match explicit_scheme (clean_url u) with
               | Some (s, _) => s
               | None => remove_unsafe (strip_by c0_control_or_space d)
               end /\
  contains "#" (s_netloc r) = false /\
  contains "#" (s_path r) = false /\
  contains "#" (s_query r) = false /\
  contains "?" (s_path r) = false.
Proof.
  unfold urlsplit.
  destruct (explicit_scheme (clean_url u)) as [[s rest]|];
    (destruct (split_netloc ok _) as [[netloc url]|e] eqn:Hn; simpl;
       [|discriminate]);
    intros [= <-];
    destruct (split_netloc_parts _ _ _ Hn) as [Hnet _];
    match goal with
    | |- context [split_fragment_query ?a ?b ?c] =>
        destruct (split_fragment_query_parts a b c)
          as (-> & -> & Hp & Hq & Hpq & _)
    end; done.
Qed.

Lemma splitparams_parts (url : string) :
  sub_chars (_splitparams url).1 url /\ sub_chars (_splitparams url).2 url.
Proof.
  unfold _splitparams.
  destruct (contains "/" url); repeat case_match; cbn [fst snd];
    split; auto using sub_chars_refl, sub_chars_nil, sub_chars_take,
                      sub_chars_drop.
Qed.

Lemma urlparse_parts (u d : string) (p : ParseResult) :
  urlparse ok u d = Ok p ->
  scheme p = match explicit_scheme (clean_url u) with
             | Some (s, _) => s
             | None => remove_unsafe (strip_by c0_control_or_space d)
             end /\
  contains "#" (netloc p) = false /\
  contains "#" (path p) = false /\
  contains "#" (params p) = false /\
  contains "#" (query p) = false /\
  contains "?" (path p) = false.
Proof.
  unfold urlparse.
  destruct (urlsplit ok u d) as [r|e] eqn:Hr;
    [cbn [mbind result_bind]|simpl; discriminate].
  destruct (urlsplit_parts u d r Hr) as (Hs & Hn & Hp & Hq & Hpq).
  destruct (splitparams_parts (s_path r)) as [Hl Hrt].
  destruct (in_list (s_scheme r) uses_params && contains ";" (s_path r)).
  - destruct (_splitparams (s_path r)) as [url params] eqn:Hsp.
    simpl in Hl, Hrt. cbn beta iota. intros [= <-]. simpl.
    repeat split; try done; by eapply sub_chars_without.
  - cbn beta iota. intros [= <-]. simpl. done.
Qed.

Lemma urlunparse_no_fragment (p : ParseResult) :
  contains "#" (scheme p) = false -> contains "#" (netloc p) = false ->
  contains "#" (path p) = false -> contains "#" (params p) = false ->
  contains "#" (query p) = false -> fragment p = EmptyString ->
  contains "#" (urlunparse p) = false.
Proof.
  destruct p as [s n pa pr q f]. simpl. intros Hs Hn Hpa Hpr Hq ->.
  unfold urlunparse, urlunsplit. simpl.
  repeat match goal with
         | |- context [if ?b then _ else _] => destruct b
         end;
    rewrite ?contains_app, ?Hs, ?Hn, ?Hpa, ?Hpr, ?Hq; reflexivity.
Qed.

Lemma valid_scheme_no_fragment (s : string) :
  valid_scheme s = true -> contains "#" s = false.
Proof.
  intros (c & t & -> & _ & Hs & _)%valid_scheme_parts.
  by apply (forall_chars_without scheme_char).
Qed.

(** What [urldefrag] returns never holds a [#]. *)
Lemma urldefrag_no_fragment (u c : string) :
  urldefrag ok u = Ok c -> contains "#" c = false.
Proof.
  unfold urldefrag. destruct (contains "#" u) eqn:Hh; [|by intros [= <-]].
  destruct (urlparse ok u EmptyString) as [p|e] eqn:Hp; simpl; [|discriminate].
  intros [= <-].
  destruct (urlparse_parts u _ p Hp) as (Hs & Hn & Hpa & Hpr & Hq & _).
  apply urlunparse_no_fragment; simpl; try done.
  rewrite Hs. destruct (explicit_scheme (clean_url u)) as [[s rest]|] eqn:He.
  - apply valid_scheme_no_fragment. by apply (explicit_scheme_valid _ _ _ He).
  - reflexivity.
Qed.

Lemma urlunsplit_scheme_prefix (c : SplitResult) :
  nonempty (s_scheme c) = true ->
  exists rest, urlunsplit c = s_scheme c +:+ String ":" rest.
Proof.
  intros Hs. unfold urlunsplit. rewrite Hs.
  match goal with
  | |- context [s_scheme c +:+ ":" +:+ ?u] => generalize u; intros url1
  end.
  destruct (nonempty (s_query c)), (nonempty (s_fragment c));
    rewrite ?append_assoc; simpl; eauto.
Qed.

Lemma urlunparse_scheme_prefix (p : ParseResult) :
  nonempty (scheme p) = true ->
  exists rest, urlunparse p = scheme p +:+ String ":" rest.
Proof.
  intros Hs. unfold urlunparse.
  match goal with
  | |- context [urlunsplit ?c] =>
      destruct (urlunsplit_scheme_prefix c Hs) as [rest Hrest]
  end.
  eauto.
Qed.

Lemma urlunsplit_https (c : SplitResult) :
  s_scheme c = "https" -> startswith "https://" (urlunsplit c) = true.
Proof.
  destruct c as [s n u q f]. simpl. intros ->. unfold urlunsplit.
  cbn [s_scheme s_netloc s_path s_query s_fragment].
  change (nonempty "https") with true.
  change (in_list "https" uses_netloc) with true. cbn [andb].
  assert (H1 : forall url1, startswith "//" url1 = true ->
            startswith "https://" ("https" +:+ ":" +:+ url1) = true).
  { intros url1 Hu. rewrite (startswith_split _ _ Hu). simpl.
    apply prefix_nil. }
  match goal with
  | |- context ["https" +:+ ":" +:+ ?u1] =>
      assert (H2 : startswith "https://" ("https" +:+ ":" +:+ u1) = true)
  end.
  { apply H1. destruct (nonempty n); cbn [orb].
    - apply startswith_self_app.
    - destruct (String.eqb (take 2 u) "//") eqn:Ht; cbn [negb].
      + apply String.eqb_eq in Ht. by apply (take_eq_startswith 2).
      + apply startswith_self_app. }
  destruct (nonempty q), (nonempty f); auto using startswith_app.
Qed.

Lemma urlunparse_https (p : ParseResult) :
  scheme p = "https" -> startswith "https://" (urlunparse p) = true.
Proof. intros Hs. unfold urlunparse. by apply urlunsplit_https. Qed.

Lemma valid_scheme_https : valid_scheme "https" = true.
Proof. reflexivity. Qed.

Lemma startswith_https_scheme (c : string) :
  startswith "https://" c = true ->
  explicit_scheme (clean_url c) =
    Some ("https", remove_unsafe (drop 6 c)).
Proof.
  intros Hc. rewrite (startswith_split _ _ Hc).
  change ("https://" +:+ drop (String.length "https://") c)
    with ("https" +:+ String ":" ("//" +:+ drop 8 c)).
  rewrite (clean_url_scheme _ _ valid_scheme_https).
  rewrite (explicit_scheme_intro _ _ valid_scheme_https).
  reflexivity.
Qed.

Lemma has_scheme_https (c : string) :
  startswith "https://" c = true -> has_scheme c = true.
Proof.
  intros Hc. unfold has_scheme. by rewrite (startswith_https_scheme c Hc).
Qed.

Lemma urlparse_PBF_URL :
  urlparse ok Engine.PBF_URL EmptyString =
    Ok (mkParse "https" "www.pbfcm.com" "/taxsale.html" "" "" "").
Proof. reflexivity. Qed.

(** [urljoin] against the source page either hands back a reference that
    has a scheme of its own, untouched, or builds an [https://] URL. *)
Lemma urljoin_PBF_URL (h j : string) :
  nonempty h = true -> urljoin ok Engine.PBF_URL h = Ok j ->
  (has_scheme h = true /\ j = h) \/
  (startswith "https://" j = true /\
   (has_scheme h = false \/
    exists rest, explicit_scheme (clean_url h) = Some ("https", rest))).
Proof.
  intros Hh. unfold urljoin. change (nonempty Engine.PBF_URL) with true.
  rewrite Hh. cbn [negb]. rewrite urlparse_PBF_URL. cbn [mbind result_bind].
  destruct (urlparse ok h _) as [u|e] eqn:Hu; [|discriminate].
  cbn [mbind result_bind scheme netloc path params query fragment].
  destruct (urlparse_parts h _ u Hu) as (Hs & _).
  assert (Hkind : scheme u = "https" ->
            has_scheme h = false \/
            exists rest, explicit_scheme (clean_url h) = Some ("https", rest)).
  { intros Hsu. unfold has_scheme.
    destruct (explicit_scheme (clean_url h)) as [[s rest]|]; [|by left].
    right. exists rest. congruence. }
  destruct (String.eqb (scheme u) "https") eqn:Heq.
  - apply String.eqb_eq in Heq. specialize (Hkind Heq).
    rewrite Heq. change (in_list "https" uses_relative) with true.
    change (in_list "https" uses_netloc) with true. cbn [negb orb andb].
    destruct (nonempty (netloc u)).
    + intros [= <-]. right. split; [by apply urlunparse_https|done].
    + destruct (negb (nonempty (path u)) && negb (nonempty (params u)));
        intros [= <-]; right; (split; [by apply urlunparse_https|done]).
  - cbn [negb orb]. intros [= <-]. left. split; [|done].
    unfold has_scheme.
    destruct (explicit_scheme (clean_url h)) as [[s rest]|]; [done|].
    apply String.eqb_neq in Heq. by destruct Heq.
Qed.

Lemma urldefrag_keeps_scheme (j c : string) :
  urldefrag ok j = Ok c -> has_scheme j = true -> has_scheme c = true.
Proof.
  unfold urldefrag. destruct (contains "#" j); [|by intros [= <-]].
  destruct (urlparse ok j EmptyString) as [p|e] eqn:Hp;
    [cbn [mbind result_bind]|discriminate].
  intros [= <-]. unfold has_scheme.
  destruct (urlparse_parts j _ p Hp) as (Hs & _).
  destruct (explicit_scheme (clean_url j)) as [[s rest]|] eqn:He; [|done].
  intros _. destruct (explicit_scheme_valid _ _ _ He) as [Hv _].
  match goal with
  | |- context [urlunparse ?q] =>
      destruct (urlunparse_scheme_prefix q) as [rest' ->]
  end.
  - cbn [scheme]. rewrite Hs.
    by destruct (valid_scheme_parts s Hv) as (c0 & t & -> & _).
  - cbn [scheme]. rewrite Hs. fold (has_scheme (s +:+ String ":" rest')).
    by apply has_scheme_intro.
Qed.

Lemma urldefrag_keeps_https (j c : string) :
  urldefrag ok j = Ok c -> startswith "https://" j = true ->
  startswith "https://" c = true.
Proof.
  unfold urldefrag. destruct (contains "#" j); [|by intros [= <-]].
  destruct (urlparse ok j EmptyString) as [p|e] eqn:Hp;
    [cbn [mbind result_bind]|discriminate].
  intros [= <-] Hj. apply urlunparse_https. cbn [scheme].
  destruct (urlparse_parts j _ p Hp) as (Hs & _).
  by rewrite (startswith_https_scheme j Hj) in Hs.
Qed.

(** The canonical form of a non-empty href: it has a scheme and no
    fragment, and it starts with [https://] unless the href named another
    scheme. *)
Lemma canonical_url_absolute (h c : string) :
  nonempty h = true -> Engine.canonical_url ok h = Ok c ->
  has_scheme c = true /\ contains "#" c = false /\
  (has_scheme h = false -> startswith "https://" c = true).
Proof.
  intros Hh. unfold Engine.canonical_url.
  destruct (urljoin ok Engine.PBF_URL h) as [j|e] eqn:Hj;
    [cbn [mbind result_bind]|discriminate].
  intros Hc. split; [|split].
  - destruct (urljoin_PBF_URL h j Hh Hj) as [[Hs ->]|[Hs _]].
    + by apply (urldefrag_keeps_scheme h c).
    + apply has_scheme_https. by apply (urldefrag_keeps_https j c).
  - by apply (urldefrag_no_fragment j c).
  - intros Hrel. destruct (urljoin_PBF_URL h j Hh Hj) as [[Hs _]|[Hs _]].
    + congruence.
    + by apply (urldefrag_keeps_https j c).
Qed.

End UrlFacts.

(** ** Normalization *)

Section Normalize.
Import Str Urllib Engine.
Variable ok : string -> bool.

Lemma urlparse_empty :
  urlparse ok EmptyString EmptyString =
    Ok (mkParse EmptyString EmptyString EmptyString EmptyString EmptyString
          EmptyString).
Proof. reflexivity. Qed.

(** [_file_type] on a URL that parses, as a function of the lowered path. *)
Lemma file_type_of_path (u : string) (p : ParseResult) :
  urlparse ok u EmptyString = Ok p ->
  _file_type ok (Some u) =
    Ok (let path := py_lower (path p) in
        if endswith ".pdf" path then Some "pdf"
        else if endswith ".doc" path || endswith ".docx" path then Some "doc"
        else if endswith ".xls" path || endswith ".xlsx" path then Some "xls"
        else None).
Proof.
  intros Hp. unfold _file_type. destruct (nonempty u) eqn:Hu; simpl.
  - rewrite Hp. simpl.
    destruct (endswith ".pdf" _); [done|].
    destruct (_ || _); [done|]. by destruct (_ || _).
  - apply nonempty_false in Hu as ->. rewrite urlparse_empty in Hp.
    by injection Hp as <-.
Qed.

(** C4, as the code has it. [_file_type] returns null for a null URL; for
    a URL that [urlparse] accepts it looks only at the lowered path
    component, which holds neither the query nor the fragment, and returns
    "pdf" when that ends in [.pdf], "doc" when it ends in [.doc] or [.docx],
    "xls" when it ends in [.xls] or [.xlsx], and null when it ends in none
    of the five; where [urlparse] raises, so does [_file_type]. The four
    sample URLs of the specification classify as it says, and a query, a
    fragment or path parameters after the suffix do not matter. *)
Theorem file_type_by_path_suffix :
  _file_type ok None = Ok None /\
  (forall u p, urlparse ok u EmptyString = Ok p ->
     let lowered := py_lower (path p) in
     (contains "?" (path p) = false /\ contains "#" (path p) = false) /\
     (endswith ".pdf" lowered = true ->
        _file_type ok (Some u) = Ok (Some "pdf")) /\
     (endswith ".doc" lowered = true \/ endswith ".docx" lowered = true ->
        _file_type ok (Some u) = Ok (Some "doc")) /\
     (endswith ".xls" lowered = true \/ endswith ".xlsx" lowered = true ->
        _file_type ok (Some u) = Ok (Some "xls")) /\
     (endswith ".pdf" lowered = false -> endswith ".doc" lowered = false ->
      endswith ".docx" lowered = false -> endswith ".xls" lowered = false ->
      endswith ".xlsx" lowered = false ->
        _file_type ok (Some u) = Ok None)) /\
  (forall u e, u <> EmptyString -> urlparse ok u EmptyString = Raise e ->
     _file_type ok (Some u) = Raise e) /\
  _file_type ok (Some "https://x/y/doc.PDF") = Ok (Some "pdf") /\
  _file_type ok (Some "https://x/y/report.docx") = Ok (Some "doc") /\
  _file_type ok (Some "https://x/y/page.html") = Ok None /\
  _file_type ok (Some "https://x/y/sheet.XLSX?v=.pdf#a.doc") = Ok (Some "xls") /\
  _file_type ok (Some "https://x/y/notice.pdf;v=1.doc") = Ok (Some "pdf") /\
  _file_type ok (Some "https://x/y/") = Ok None.
Proof.
  split; [reflexivity|]. split; [|split; [|repeat split; reflexivity]].
  - intros u p Hp lowered. rewrite (file_type_of_path u p Hp).
    fold lowered. cbv zeta.
    destruct (urlparse_parts ok u _ p Hp) as (_ & _ & Hhash & _ & _ & Hquery).
    split; [done|]. repeat split.
    + by intros ->.
    + intros Hd.
      assert (endswith ".pdf" lowered = false) as ->.
      { destruct Hd as [Hd|Hd];
          [apply (endswith_excludes ".doc" ".pdf" lowered Hd)
          |apply (endswith_excluded ".pdf" ".docx" lowered Hd)];
          (simpl; lia) || reflexivity. }
      by destruct Hd as [-> | ->]; [|rewrite orb_true_r].
    + intros Hx.
      assert (endswith ".pdf" lowered = false) as ->.
      { destruct Hx as [Hx|Hx];
          [apply (endswith_excludes ".xls" ".pdf" lowered Hx)
          |apply (endswith_excluded ".pdf" ".xlsx" lowered Hx)];
          (simpl; lia) || reflexivity. }
      assert (endswith ".doc" lowered = false) as ->.
      { destruct Hx as [Hx|Hx];
          [apply (endswith_excludes ".xls" ".doc" lowered Hx)
          |apply (endswith_excluded ".doc" ".xlsx" lowered Hx)];
          (simpl; lia) || reflexivity. }
      assert (endswith ".docx" lowered = false) as ->.
      { destruct Hx as [Hx|Hx];
          [apply (endswith_excludes ".xls" ".docx" lowered Hx)
          |apply (endswith_excludes ".xlsx" ".docx" lowered Hx)];
          (simpl; lia) || reflexivity. }
      by destruct Hx as [-> | ->]; [|rewrite orb_true_r].
    + by intros -> -> -> -> ->.
  - intros u e Hu He. unfold _file_type.
    apply nonempty_true in Hu. rewrite Hu. simpl. by rewrite He.
Qed.

Lemma or_None_trimmed (x : option string) :
  or_None (Some (py_strip (or_str x))) = Spec.trimmed_or_null x.
Proof. by destruct x. Qed.

Lemma or_None_href (x : option string) : or_None x = Spec.href_or_null x.
Proof. by destruct x as [[|c s]|]. Qed.

Lemma normalize_fields (r : Row) (n : NormRow) :
  _normalize ok r = Ok n ->
  entity_title n = Spec.trimmed_or_null (tax_list_entity_title r) /\
  file_label n = Spec.trimmed_or_null (tax_list_file r) /\
  file_url n = Spec.href_or_null (tax_list_file_href r) /\
  _file_type ok (file_url n) = Ok (file_type n).
Proof.
  unfold _normalize. rewrite !or_None_trimmed, or_None_href.
  destruct (_file_type ok _) as [ft|e] eqn:Hft; simpl; [|discriminate].
  intros [= <-]. simpl. done.
Qed.

Lemma scrape_inv {Node : Type} `{Js.Dom Node}
    (s s' : Scraper) (res : ScrapeResult) :
  scrape ok s = (Ok res, s') ->
  _extract_js ok = Ok (raw res) /\
  mapM (_normalize ok) (raw res) = Ok (normalized res) /\
  count res = List.length (raw res) /\
  source_url res = PBF_URL.
Proof.
  unfold scrape. destruct (_browser (start s)); [|discriminate].
  destruct (_extract_js ok) as [raw_rows|e]; [|discriminate].
  destruct (mapM (_normalize ok) raw_rows) as [norm_rows|e] eqn:Hn;
    [|discriminate].
  intros [= <- <-]. simpl. done.
Qed.

(** C5. In every result of [scrape], [raw], [normalized] and [count] agree
    in length, and the record at each index of [normalized] is
    [_normalize] of the record at that index of [raw]: title and label
    stripped, or null when nothing is left; the href itself, or null when
    it is missing or empty; and [_file_type] of that URL. *)
Theorem scrape_result_aligned {Node : Type} `{Js.Dom Node}
    (s s' : Scraper) (res : ScrapeResult) :
  scrape ok s = (Ok res, s') ->
  List.length (raw res) = count res /\
  List.length (normalized res) = count res /\
  forall i r, raw res !! i = Some r ->
    exists n, normalized res !! i = Some n /\
      _normalize ok r = Ok n /\
      entity_title n = Spec.trimmed_or_null (tax_list_entity_title r) /\
      file_label n = Spec.trimmed_or_null (tax_list_file r) /\
      file_url n = Spec.href_or_null (tax_list_file_href r) /\
      _file_type ok (file_url n) = Ok (file_type n).
Proof.
  intros (_ & Hn & Hcount & _)%scrape_inv.
  destruct (mapM_Ok _ _ _ Hn) as [Hlen Hnth].
  split; [done|]. split; [congruence|].
  intros i r Hr. destruct (Hnth i r Hr) as (nr & Hi & Hnr).
  exists nr. split; [done|]. split; [done|]. by apply normalize_fields.
Qed.

(** C9. A raw record whose href is the empty string normalizes exactly as
    the same record with a null href: [file_url] and [file_type] are both
    null, and [_file_type] itself returns null for the empty string. *)
Theorem empty_href_normalizes_as_absent (title label : option string) :
  _normalize ok (mkRow title label (Some EmptyString)) =
    Ok (mkNorm (Spec.trimmed_or_null title) (Spec.trimmed_or_null label)
          None None) /\
  _normalize ok (mkRow title label (Some EmptyString)) =
    _normalize ok (mkRow title label None) /\
  _file_type ok (Some EmptyString) = Ok None.
Proof.
  unfold _normalize.
  cbn [tax_list_entity_title tax_list_file tax_list_file_href].
  rewrite !or_None_trimmed. repeat split.
Qed.

End Normalize.

(** C4 as stated fails for a URL [urlparse] rejects. The href
    ["http:////[#f"] has the canonical form ["http://["], whose network
    location is an unmatched bracket: [_file_type] raises instead of
    returning null. *)
Lemma file_type_raises_on_unmatched_bracket :
  Engine.canonical_url Pages.no_brackets "http:////[#f" = Ok "http://[" /\
  Engine._file_type Pages.no_brackets (Some "http://[") =
    Raise (ValueError "Invalid IPv6 URL").
Proof. split; reflexivity. Qed.

Lemma file_type_by_path_suffix_witness :
  Engine._file_type Pages.no_brackets (Some "https://x/y/REPORT.Docx?download=1")
    = Ok (Some "doc").
Proof.
  destruct (file_type_by_path_suffix Pages.no_brackets) as (_ & Hclass & _).
  destruct (Hclass "https://x/y/REPORT.Docx?download=1"
              (Urllib.mkParse "https" "x" "/y/REPORT.Docx" "" "download=1" ""))
    as (_ & _ & Hdoc & _).
  - reflexivity.
  - apply Hdoc. right. reflexivity.
Defined.

Lemma scrape_result_aligned_witness :
  exists res s',
    @Engine.scrape Pages.no_brackets nat Pages.heading_page Pages.new_scraper
      = (Ok res, s') /\
    count res = 2%nat /\
    List.length (raw res) = count res /\
    List.length (normalized res) = count res /\
    normalized res !! 1%nat =
      Some (mkNorm (Some "Smith County Sale List List") None
              (Some "https://www.pbfcm.com/files/b.docx") (Some "doc")).
Proof.
  destruct (@Engine.scrape Pages.no_brackets nat Pages.heading_page
              Pages.new_scraper) as [[res|e] s'] eqn:Hs;
    [|vm_compute in Hs; discriminate].
  exists res, s'.
  destruct (@scrape_result_aligned Pages.no_brackets nat Pages.heading_page
              Pages.new_scraper s' res Hs) as (Hraw & Hnorm & _).
  vm_compute in Hs. injection Hs as <- <-.
  repeat split; assumption || reflexivity.
Defined.

(** ** Canonical URLs in the returned rows *)

Section Canonical.
Import Str Urllib Engine.
Variable ok : string -> bool.

Lemma absolutize_cases (r0 r : Row) :
  absolutize ok r0 = Ok r ->
  tax_list_entity_title r = tax_list_entity_title r0 /\
  tax_list_file r = tax_list_file r0 /\
  match tax_list_file_href r0 with
  | Some (String a h0) =>
      exists c, canonical_url ok (String a h0) = Ok c /\
                tax_list_file_href r = Some c
  | _ => r = r0
  end.
Proof.
  unfold absolutize. destruct (tax_list_file_href r0) as [[|a h0]|].
  - by intros [= <-].
  - cbn [nonempty].
    destruct (canonical_url ok (String a h0)) as [c|e];
      [cbn [mbind result_bind]|discriminate].
    intros [= <-]. simpl. eauto.
  - by intros [= <-].
Qed.

Lemma clean_rows_origin (rows out : list Row) (r : Row) :
  clean_rows ok rows = Ok out -> r ∈ out ->
  exists r0, r0 ∈ rows /\ absolutize ok r0 = Ok r.
Proof.
  rewrite clean_rows_keep_unseen.
  destruct (mapM (absolutize ok) rows) as [canon|e] eqn:Hc;
    [cbn [mbind result_bind]|discriminate].
  intros [= <-] Hr. destruct (keep_unseen_not_seen _ _ _ Hr) as [_ Hin].
  by apply (mapM_elem_of _ _ _ _ Hc).
Qed.

(** C3, as the code has it. Every returned row is an input row whose href,
    when it is neither null nor empty, has been replaced by
    [urldefrag(urljoin(PBF_URL, href))]; a row whose href is null or empty
    is returned as it came. The replacement holds no [#], and it is
    absolute in the sense of [urlsplit]: a scheme is found in it (leading
    blanks and control characters, tabs and line breaks set aside); it
    starts with [https://] whenever the href named no scheme of its own.
    So every returned href that is neither null nor empty, and every
    non-null [file_url] of the normalized rows, is absolute and free of
    fragments. The sample href ["/files/a.pdf#page=2"] becomes
    ["https://www.pbfcm.com/files/a.pdf"]. *)
Theorem canonical_hrefs_absolute (rows out : list Row) :
  clean_rows ok rows = Ok out ->
  (forall r, r ∈ out ->
     exists r0, r0 ∈ rows /\
       tax_list_entity_title r = tax_list_entity_title r0 /\
       tax_list_file r = tax_list_file r0 /\
       match tax_list_file_href r0 with
       | Some (String a h0) =>
           exists c, canonical_url ok (String a h0) = Ok c /\
                     tax_list_file_href r = Some c
       | _ => r = r0
       end) /\
  (forall r h, r ∈ out -> tax_list_file_href r = Some h -> h <> EmptyString ->
     has_scheme h = true /\ contains "#" h = false) /\
  (forall h c, h <> EmptyString -> canonical_url ok h = Ok c ->
     has_scheme c = true /\ contains "#" c = false /\
     (has_scheme h = false -> startswith "https://" c = true)) /\
  (forall n u, mapM (_normalize ok) out = Ok n ->
     forall nr, nr ∈ n -> file_url nr = Some u ->
     has_scheme u = true /\ contains "#" u = false) /\
  canonical_url ok "/files/a.pdf#page=2" = Ok "https://www.pbfcm.com/files/a.pdf".
Proof.
  intros Hout.
  assert (Habs : forall r h, r ∈ out -> tax_list_file_href r = Some h ->
            h <> EmptyString -> has_scheme h = true /\ contains "#" h = false);
    [|split; [|split; [exact Habs|split; [|split]]]].
  - intros r h Hr Hh Hne.
    destruct (clean_rows_origin rows out r Hout Hr) as (r0 & Hr0 & Ha).
    destruct (absolutize_cases r0 r Ha) as (_ & _ & Hcase).
    destruct (tax_list_file_href r0) as [[|a h0]|] eqn:H0.
    + subst r0. congruence.
    + destruct Hcase as (c & Hc & Hrc).
      assert (c = h) as -> by congruence.
      destruct (canonical_url_absolute ok (String a h0) h eq_refl Hc)
        as (Hs & Hf & _). done.
    + subst r0. congruence.
  - intros r Hr. destruct (clean_rows_origin rows out r Hout Hr) as (r0 & Hr0 & Ha).
    exists r0. split; [done|]. by apply absolutize_cases.
  - intros h c Hne Hc. apply (canonical_url_absolute ok h c); [|done].
    by apply nonempty_true.
  - intros n u Hn nr Hnr Hu.
    destruct (mapM_elem_of _ _ _ _ Hn Hnr) as (r & Hr & Hnorm).
    destruct (normalize_fields ok r nr Hnorm) as (_ & _ & Hurl & _).
    rewrite Hu in Hurl. destruct (tax_list_file_href r) as [[|a h]|] eqn:Hh;
      try discriminate.
    injection Hurl as ->. by apply (Habs r).
  - reflexivity.
Qed.

End Canonical.

(** C3 as stated fails: on [blank_page] the second file link has an empty
    [href]; the engine returns it as it came, a non-null href that is no
    absolute URL. *)
Lemma empty_href_is_returned_unresolved :
  @Engine._extract_js Pages.no_brackets nat Pages.blank_page =
    Ok [mkRow (Some EmptyString) (Some EmptyString)
              (Some "https://www.pbfcm.com/a.pdf");
        mkRow (Some EmptyString) None (Some EmptyString)] /\
  Urllib.has_scheme EmptyString = false /\
  Str.startswith "https://" EmptyString = false.
Proof. repeat split. Qed.

Lemma canonical_hrefs_absolute_witness :
  Engine.clean_rows Pages.no_brackets (@Js.script nat Pages.blank_page) =
    Ok [mkRow (Some EmptyString) (Some EmptyString)
              (Some "https://www.pbfcm.com/a.pdf");
        mkRow (Some EmptyString) None (Some EmptyString)] /\
  Urllib.has_scheme "https://www.pbfcm.com/a.pdf" = true /\
  Str.contains "#" "https://www.pbfcm.com/a.pdf" = false.
Proof.
  assert (Hout : Engine.clean_rows Pages.no_brackets
                   (@Js.script nat Pages.blank_page) =
                 Ok [mkRow (Some EmptyString) (Some EmptyString)
                           (Some "https://www.pbfcm.com/a.pdf");
                     mkRow (Some EmptyString) None (Some EmptyString)])
    by (vm_compute; reflexivity).
  split; [exact Hout|].
  destruct (canonical_hrefs_absolute Pages.no_brackets _ _ Hout)
    as (_ & Habs & _).
  apply (Habs (mkRow (Some EmptyString) (Some EmptyString)
                 (Some "https://www.pbfcm.com/a.pdf"))).
  - left.
  - reflexivity.
  - discriminate.
Defined.

(** * Further properties *)

(** ** Duplicate removal loses no key *)

Section DedupMore.
Import Engine.
Variable ok : string -> bool.

Lemma keep_unseen_covers seen l r :
  r ∈ l ->
  (key_of r ∈ seen) \/ (exists r', r' ∈ keep_unseen seen l /\ key_of r' = key_of r).
Proof.
  revert seen. induction l as [|a l IH]; intros seen; simpl.
  - intros Hr. by apply elem_of_nil in Hr.
  - intros [->|Hr]%elem_of_cons.
    + case_bool_decide as Hin; [by left|].
      right. exists a. split; [left|done].
    + case_bool_decide as Hin.
      * apply IH, Hr.
      * destruct (IH ({[key_of a]} ∪ seen) Hr) as [Hs|(r' & Hr' & Hk)].
        -- apply elem_of_union in Hs as [Hs|Hs]; [|by left].
           apply elem_of_singleton in Hs. right. exists a.
           split; [left|done].
        -- right. exists r'. split; [by right|done].
Qed.

Lemma keep_unseen_all seen l :
  NoDup (key_of <$> l) -> (forall r, r ∈ l -> key_of r ∉ seen) ->
  keep_unseen seen l = l.
Proof.
  revert seen. induction l as [|a l IH]; intros seen; [done|].
  rewrite fmap_cons. cbn [keep_unseen]. intros [Ha Hnd]%NoDup_cons Hseen.
  rewrite bool_decide_eq_false_2 by (apply Hseen; left).
  f_equal. apply IH; [done|]. intros r Hr [Hk|Hs]%elem_of_union.
  - apply elem_of_singleton in Hk. apply Ha. rewrite <- Hk.
    by apply list_elem_of_fmap_2.
  - apply (Hseen r); [by right|done].
Qed.

Lemma keep_unseen_keys l :
  list_to_set (key_of <$> keep_unseen ∅ l)
    =@{gset (string * string * string)} list_to_set (key_of <$> l).
Proof.
  apply set_eq. intros k. rewrite !elem_of_list_to_set. split.
  - intros (r & -> & Hr)%list_elem_of_fmap.
    destruct (keep_unseen_not_seen _ _ _ Hr) as [_ Hl].
    by apply list_elem_of_fmap_2.
  - intros (r & -> & Hr)%list_elem_of_fmap.
    destruct (keep_unseen_covers ∅ l r Hr) as [Hs|(r' & Hr' & Hk)].
    + by apply not_elem_of_empty in Hs.
    + rewrite <- Hk. by apply list_elem_of_fmap_2.
Qed.

(** X1. When every href resolves, [_extract_js] returns, and its result
    loses no key: each canonicalized row has its key on a returned row,
    the number of returned rows is the number of distinct keys, never more
    than the number of input rows, and when the keys are already pairwise
    different nothing is removed. *)
Theorem dedup_keeps_every_key (rows canon : list Row) :
  mapM (absolutize ok) rows = Ok canon ->
  exists out,
    clean_rows ok rows = Ok out /\
    (forall r, r ∈ canon -> exists r', r' ∈ out /\ key_of r' = key_of r) /\
    List.length out =
      size (list_to_set (key_of <$> canon) : gset (string * string * string)) /\
    (List.length out <= List.length rows)%nat /\
    (NoDup (key_of <$> canon) -> out = canon).
Proof.
  intros Hc. exists (keep_unseen ∅ canon).
  split; [by rewrite clean_rows_keep_unseen, Hc|].
  split; [|split; [|split]].
  - intros r Hr. destruct (keep_unseen_covers ∅ canon r Hr) as [Hs|Hex];
      [by apply not_elem_of_empty in Hs|done].
  - rewrite <- keep_unseen_keys.
    rewrite size_list_to_set by apply keep_unseen_NoDup.
    by rewrite length_fmap.
  - destruct (mapM_Ok _ _ _ Hc) as [<- _].
    apply sublist_length, keep_unseen_sublist.
  - intros Hnd. apply keep_unseen_all; [done|].
    intros r _. apply not_elem_of_empty.
Qed.

End DedupMore.

Lemma dedup_keeps_every_key_witness :
  exists out,
    Engine.clean_rows Pages.no_brackets (@Js.script nat Pages.heading_page)
      = Ok out /\
    List.length out = 2%nat.
Proof.
  destruct (dedup_keeps_every_key Pages.no_brackets
              (@Js.script nat Pages.heading_page)
              [mkRow (Some "Smith County Sale List List") (Some "List")
                     (Some "https://www.pbfcm.com/files/a.pdf");
               mkRow (Some "Smith County Sale List List") None
                     (Some "https://www.pbfcm.com/files/b.docx");
               mkRow (Some "Smith County Sale List List") (Some "List")
                     (Some "https://www.pbfcm.com/files/a.pdf")])
    as (out & Hout & _ & Hlen & _).
  - vm_compute. reflexivity.
  - exists out. split; [exact Hout|].
    rewrite Hlen. vm_compute. reflexivity.
Defined.

(** ** Stripping, in the page and in Python *)

Section Strip.
Import Str.

Lemma lstrip_lstrip (p q : ascii -> bool) (s : string) :
  (forall c, p c = true -> q c = true) ->
  lstrip_by q (lstrip_by p s) = lstrip_by q s.
Proof.
  intros Hpq. induction s as [|c s IH]; simpl; [done|].
  destruct (p c) eqn:Hp; [by rewrite (Hpq c Hp)|done].
Qed.

Lemma rstrip_cons (p : ascii -> bool) (c : ascii) (s : string) :
  rstrip_by p (String c s) =
    match rstrip_by p s with
    | EmptyString => if p c then EmptyString else String c EmptyString
    | t => String c t
    end.
Proof. reflexivity. Qed.

Lemma rstrip_rstrip (p q : ascii -> bool) (s : string) :
  (forall c, p c = true -> q c = true) ->
  rstrip_by q (rstrip_by p s) = rstrip_by q s.
Proof.
  intros Hpq. induction s as [|c s IH]; [done|].
  rewrite !rstrip_cons. destruct (rstrip_by p s) as [|d t] eqn:Hr.
  - simpl in IH. rewrite <- IH. destruct (p c) eqn:Hp.
    + by rewrite (Hpq c Hp).
    + by rewrite rstrip_cons.
  - rewrite rstrip_cons, IH. done.
Qed.

(** Stripping on the left and on the right do not get in each other's
    way. *)
Lemma lstrip_rstrip (p q : ascii -> bool) (s : string) :
  (forall c, p c = true -> q c = true) ->
  lstrip_by q (rstrip_by p s) = rstrip_by p (lstrip_by q s).
Proof.
  intros Hpq. induction s as [|c s IH]; [done|].
  rewrite rstrip_cons. cbn [lstrip_by]. destruct (q c) eqn:Hq.
  - rewrite <- IH. destruct (rstrip_by p s) as [|d t]; simpl.
    + destruct (p c); [done|]. simpl. by rewrite Hq.
    + by rewrite Hq.
  - rewrite rstrip_cons.
    destruct (rstrip_by p s) as [|d t]; simpl.
    + destruct (p c) eqn:Hp; [by rewrite (Hpq c Hp) in Hq|].
      simpl. by rewrite Hq.
    + by rewrite Hq.
Qed.

Lemma strip_strip (p q : ascii -> bool) (s : string) :
  (forall c, p c = true -> q c = true) ->
  strip_by q (strip_by p s) = strip_by q s.
Proof.
  intros Hpq. unfold strip_by.
  rewrite (lstrip_rstrip p q) by done.
  rewrite (lstrip_lstrip p q) by done.
  by apply rstrip_rstrip.
Qed.



Lemma py_strip_py_strip (s : string) : py_strip (py_strip s) = py_strip s.
Proof. by apply strip_strip. Qed.

End Strip.

Section NormalizeMore.
Import Str Urllib Engine.
Variable ok : string -> bool.

Lemma trimmed_or_null_clean (x : option string) (t : string) :
  Spec.trimmed_or_null x = Some t -> t <> EmptyString /\ py_strip t = t.
Proof.
  destruct x as [s|]; simpl; [|discriminate].
  destruct (nonempty (py_strip s)) eqn:Hn; [|discriminate].
  intros [= <-]. split; [by apply nonempty_true|apply py_strip_py_strip].
Qed.

(** X2. A normalized record holds no empty string: title and label are
    null or a non-empty text with no white space left to strip at either
    end, [file_url] is null or non-empty, and [file_type] is null, "pdf",
    "doc" or "xls", null whenever [file_url] is. *)
Theorem normalized_record_is_clean (r : Row) (n : NormRow) :
  _normalize ok r = Ok n ->
  (forall t, entity_title n = Some t -> t <> EmptyString /\ py_strip t = t) /\
  (forall t, file_label n = Some t -> t <> EmptyString /\ py_strip t = t) /\
  (forall u, file_url n = Some u -> u <> EmptyString) /\
  (file_url n = None -> file_type n = None) /\
  (file_type n = None \/ file_type n = Some "pdf" \/
   file_type n = Some "doc" \/ file_type n = Some "xls").
Proof.
  intros (Ht & Hl & Hu & Hft)%normalize_fields.
  split; [|split; [|split; [|split]]].
  - intros t Hn. rewrite Ht in Hn. by eapply trimmed_or_null_clean.
  - intros t Hn. rewrite Hl in Hn. by eapply trimmed_or_null_clean.
  - intros u Hn. rewrite Hu in Hn.
    destruct (tax_list_file_href r) as [[|c s]|]; simpl in Hn; congruence.
  - intros Hn. rewrite Hn in Hft. simpl in Hft. congruence.
  - destruct (file_url n) as [u|]; [|left; simpl in Hft; congruence].
    unfold _file_type in Hft. destruct (nonempty u); simpl in Hft;
      [|left; congruence].
    destruct (urlparse ok u EmptyString) as [p|e]; simpl in Hft;
      [|discriminate].
    destruct (endswith ".pdf" _); [right; left; congruence|].
    destruct (_ || _); [right; right; left; congruence|].
    destruct (_ || _); [right; right; right; congruence|left; congruence].
Qed.


End NormalizeMore.

Lemma normalized_record_is_clean_witness :
  Engine._normalize Pages.no_brackets
    (mkRow (Some "  Smith County ") None (Some "/a.pdf")) =
    Ok (mkNorm (Some "Smith County") None (Some "/a.pdf") (Some "pdf")) /\
  "Smith County" <> EmptyString /\
  Str.py_strip "Smith County" = "Smith County".
Proof.
  split; [reflexivity|].
  destruct (normalized_record_is_clean Pages.no_brackets
              (mkRow (Some "  Smith County ") None (Some "/a.pdf"))
              (mkNorm (Some "Smith County") None (Some "/a.pdf") (Some "pdf")))
    as (Ht & _).
  - reflexivity.
  - apply Ht. reflexivity.
Defined.


(** ** The heading test of the heuristic branch *)

Section Heading.
Import Str Js.

Lemma exists_chars_map (p : ascii -> bool) (f : ascii -> ascii) (s : string) :
  exists_chars p (map_chars f s) = exists_chars (fun c => p (f c)) s.
Proof. induction s as [|c s IH]; simpl; [done|]. by rewrite IH. Qed.

Lemma exists_chars_mono (p q : ascii -> bool) (s : string) :
  (forall c, p c = true -> q c = true) ->
  exists_chars p s = true -> exists_chars q s = true.
Proof.
  intros Hpq. induction s as [|c s IH]; simpl; [done|].
  intros [Hc|Hs]%orb_prop; [by rewrite (Hpq c Hc)|].
  by rewrite (IH Hs), orb_true_r.
Qed.

Lemma has_substring_first_char (a : ascii) (k s : string) :
  has_substring (String a k) s = true -> contains a s = true.
Proof.
  induction s as [|c s IH]; simpl; [done|].
  unfold contains. simpl.
  destruct (ascii_dec a c) as [->|Hne].
  - intros _. by rewrite Ascii.eqb_refl.
  - simpl. intros Hs. unfold contains in IH. by rewrite (IH Hs), orb_true_r.
Qed.

Lemma folded_letter_is_letter (a c : ascii) :
  is_lower a = true -> Ascii.eqb a (ascii_lower_char c) = true ->
  is_ascii_alpha c = true.
Proof.
  intros Ha Hc. apply Ascii.eqb_eq in Hc. subst a. revert Ha.
  destruct c as [[] [] [] [] [] [] [] []]; vm_compute; congruence.
Qed.

Lemma keyword_needs_letter (txt : string) :
  has_keyword txt = true -> has_letter txt = true.
Proof.
  unfold has_keyword, has_letter. cbn [existsb].
  assert (Hone : forall a k, is_lower a = true ->
            has_substring (String a k) (map_chars ascii_lower_char txt) = true ->
            exists_chars is_ascii_alpha txt = true).
  { intros a k Ha Hs. apply has_substring_first_char in Hs.
    unfold contains in Hs. rewrite exists_chars_map in Hs.
    revert Hs. apply exists_chars_mono. intros c. by apply folded_letter_is_letter. }
  intros Hk. repeat (apply orb_prop in Hk as [Hk|Hk]);
    try (by eapply Hone; [|exact Hk]). discriminate.
Qed.

Lemma letter_needs_text (txt : string) :
  has_letter txt = true -> nonempty txt = true.
Proof. by destruct txt. Qed.

Context {Node : Type} `{Dom Node}.

(** X4. In the heuristic branch the keyword test decides alone: a
    heading is taken exactly when its trimmed text holds one of [county],
    [pct], [sale], [isd], [sheriff] in any letter case; the tests for an
    empty text and for a letter never turn down a text the keyword test
    accepts. A heading that fails it adds no row. *)
Theorem heading_test_is_keyword_test (s : Node) :
  is_heading s = has_keyword (section_text s) /\
  (has_keyword (section_text s) = false -> forall out, tierB_section out s = out).
Proof.
  assert (Heq : is_heading s = has_keyword (section_text s)).
  { unfold is_heading. destruct (has_keyword (section_text s)) eqn:Hk.
    - pose proof (keyword_needs_letter _ Hk) as Hl.
      by rewrite Hl, (letter_needs_text _ Hl).
    - by rewrite andb_false_r. }
  split; [done|]. intros Hk out. rewrite tierB_section_pushes.
  unfold section_rows. rewrite Heq, Hk. apply app_nil_r.
Qed.

End Heading.

Lemma heading_test_is_keyword_test_witness :
  @Js.is_heading nat Pages.heading_page 2%nat = true /\
  @Js.tierB_section nat Pages.smith_page [] 3%nat = [].
Proof.
  destruct (@heading_test_is_keyword_test nat Pages.heading_page 2%nat)
    as [Heq _].
  destruct (@heading_test_is_keyword_test nat Pages.smith_page 3%nat)
    as [_ Hskip].
  split; [rewrite Heq; reflexivity|]. apply Hskip. reflexivity.
Defined.

(** ** What [scrape] asks of the browser *)

Section Sessions.
Import Engine.
Variable ok : string -> bool.

Lemma scrape_on_started {Node : Type} `{Js.Dom Node} (s : Scraper) (b : nat) :
  _browser s = Some b ->
  exists data,
    scrape ok s =
      (data,
       mkScraper (headless s) (_pw s) (Some b)
         (log s ++ [NewContext b (fresh s); NewPage (fresh s) (S (fresh s));
                    Goto (S (fresh s)) PBF_URL;
                    WaitForTimeout (S (fresh s)) 400]
                ++ match data with
                   | Ok _ => [ContextClose (fresh s)]
                   | Raise _ => []
                   end)
         (S (S (fresh s)))).
Proof.
  intros Hb. unfold scrape, start. rewrite Hb. cbn [_browser].
  rewrite Hb. cbn [headless _pw _browser log fresh].
  destruct (_extract_js ok) as [raw_rows|e].
  - destruct (mapM (_normalize ok) raw_rows) as [norm_rows|e].
    + eexists (Ok _). by rewrite <- (assoc_L (++)).
    + exists (Raise e). by rewrite app_nil_r.
  - exists (Raise e). by rewrite app_nil_r.
Qed.



End Sessions.


(** ** The service and the command line *)

Section Service.
Import Engine.
Variable ok : string -> bool.
Context {Node : Type}.

Lemma serve_on_started (pages : list (Js.Dom Node)) (s s' : Scraper)
    (responses : list (result ScrapeResult)) (b : nat) :
  _browser s = Some b ->
  Api.serve ok pages s = (responses, s') ->
  _browser s' = Some b /\ _pw s' = _pw s /\
  List.length responses = List.length pages /\
  exists body,
    log s' = log s ++ body /\
    List.filter Api.is_launch body = [] /\
    List.length (List.filter Api.is_new_context body) = List.length pages /\
    Forall (Api.on_browser b) body.
Proof.
  revert s s' responses. induction pages as [|page pages IH];
    intros s s' responses Hb; simpl.
  - intros [= <- <-]. repeat split; try done.
    exists []. by rewrite app_nil_r.
  - destruct (@scrape_on_started ok Node page s b Hb) as [data ->].
    destruct (Api.serve ok pages _) as [rest s2] eqn:Hrest.
    intros [= <- <-].
    apply IH in Hrest as (Hb2 & Hp2 & Hlen & body & Hlog & Hl & Hc & Hall);
      [|done].
    cbn [_browser _pw log] in *.
    split; [done|]. split; [done|]. split; [simpl; congruence|].
    eexists. split; [rewrite Hlog, <- !(assoc_L (++)); reflexivity|].
    rewrite !List.filter_app, !length_app, Hl, Hc.
    split; [by destruct data|]. split; [by destruct data|].
    repeat (apply Forall_app; split); try done;
      destruct data; by repeat constructor.
Qed.

(** X6. From startup to shutdown the service launches Playwright and one
    browser, once, whatever the number of scrape requests and whether
    they succeed: every request gets a response and opens exactly one
    browsing context, on that browser; shutdown closes the browser, stops
    Playwright and leaves the scraper holding neither. *)
Theorem service_launches_one_browser (pages : list (Js.Dom Node))
    (log0 : list event) (fresh0 : nat)
    (responses : list (result ScrapeResult)) (s : Scraper) :
  Api.lifetime ok pages log0 fresh0 = (responses, s) ->
  List.length responses = List.length pages /\
  _browser s = None /\ _pw s = None /\
  exists body,
    log s = log0
              ++ [PlaywrightStart fresh0; ChromiumLaunch fresh0 (S fresh0) true]
              ++ body
              ++ [BrowserClose (S fresh0); PlaywrightStop fresh0] /\
    List.filter Api.is_launch body = [] /\
    List.length (List.filter Api.is_new_context body) = List.length pages /\
    Forall (Api.on_browser (S fresh0)) body.
Proof.
  unfold Api.lifetime, Api._startup, Api._shutdown, Api.scraper.
  destruct (Api.serve ok pages _) as [rs s1] eqn:Hserve.
  intros [= <- <-].
  apply (serve_on_started _ _ _ _ (S fresh0)) in Hserve
    as (Hb & Hp & Hlen & body & Hlog & Hrest); [|reflexivity].
  split; [done|]. split; [apply stop_stopped|]. split; [apply stop_stopped|].
  exists body. split; [|done].
  unfold stop. rewrite Hb. cbn [_pw]. rewrite Hp. cbn [start _browser _pw log].
  rewrite Hlog. cbn [start _browser log]. by rewrite <- !(assoc_L (++)).
Qed.

End Service.

Lemma service_launches_one_browser_witness :
  exists s,
    snd (@Api.lifetime Pages.no_brackets nat
           [Pages.smith_page; Pages.bracket_page; Pages.heading_page] [] 0) = s /\
    Engine._browser s = None /\
    List.filter Api.is_launch (Engine.log s) =
      [Engine.PlaywrightStart 0; Engine.ChromiumLaunch 0 1 true].
Proof.
  destruct (@Api.lifetime Pages.no_brackets nat
              [Pages.smith_page; Pages.bracket_page; Pages.heading_page] [] 0)
    as [responses s] eqn:Hl.
  destruct (@service_launches_one_browser Pages.no_brackets nat _ _ _ _ _ Hl)
    as (_ & Hb & _ & body & Hlog & Hlaunch & _).
  exists s. split; [reflexivity|]. split; [exact Hb|].
  rewrite Hlog. simpl. rewrite !List.filter_app, Hlaunch. reflexivity.
Defined.

Section CommandLine.
Import Engine.
Variable ok : string -> bool.
Context {Node : Type} `{Js.Dom Node}.


End CommandLine.


(** ** The raw TSV output *)

Section Tsv.
Import Str.

Lemma contains_replace_char_gone (a b : ascii) (s : string) :
  a <> b -> contains a (replace_char a b s) = false.
Proof.
  intros Hab. unfold contains. induction s as [|c s IH]; simpl; [done|].
  rewrite IH, orb_false_r. destruct (Ascii.eqb c a) eqn:Hca.
  - by apply Ascii.eqb_neq.
  - rewrite Ascii.eqb_sym. exact Hca.
Qed.

Lemma contains_replace_char_other (c a b : ascii) (s : string) :
  c <> b -> contains c s = false -> contains c (replace_char a b s) = false.
Proof.
  intros Hcb. unfold contains. induction s as [|x s IH]; simpl; [done|].
  intros [Hx Hs]%orb_false_elim. rewrite (IH Hs), orb_false_r.
  destruct (Ascii.eqb x a); [by apply Ascii.eqb_neq|done].
Qed.

Lemma tsv_field_clean (x : option string) :
  contains "009" (Cli.tsv_field x) = false /\
  contains "010" (Cli.tsv_field x) = false.
Proof.
  unfold Cli.tsv_field, py_strip. split;
    (eapply sub_chars_without; [apply sub_chars_strip|]).
  - apply contains_replace_char_other; [discriminate|].
    by apply contains_replace_char_gone.
  - by apply contains_replace_char_gone.
Qed.

Lemma split_absent (c : ascii) (s : string) :
  contains c s = false -> split c s = [s].
Proof.
  unfold contains. induction s as [|a s IH]; simpl; [done|].
  rewrite (Ascii.eqb_sym c a).
  intros [Ha Hs]%orb_false_elim. by rewrite Ha, (IH Hs).
Qed.

Lemma split_app_sep (c : ascii) (x rest : string) :
  contains c x = false ->
  split c (x +:+ String c rest) = x :: split c rest.
Proof.
  unfold contains. induction x as [|a x IH]; simpl.
  - intros _. by rewrite Ascii.eqb_refl.
  - rewrite (Ascii.eqb_sym c a).
    intros [Ha Hx]%orb_false_elim. by rewrite Ha, (IH Hx).
Qed.

Lemma join_cons2 (c : ascii) (x y : string) (l : list string) :
  join (String c EmptyString) (x :: y :: l) =
    x +:+ String c (join (String c EmptyString) (y :: l)).
Proof. reflexivity. Qed.

(** Splitting undoes joining when no part holds the separator. *)
Lemma split_join (c : ascii) (l : list string) :
  l <> [] -> Forall (fun x => contains c x = false) l ->
  split c (join (String c EmptyString) l) = l.
Proof.
  induction l as [|x l IH]; [done|]. intros _ [Hx Hl]%Forall_cons.
  destruct l as [|y l].
  - by apply split_absent.
  - rewrite join_cons2, split_app_sep by done. f_equal. by apply IH.
Qed.

Lemma contains_cons (c a : ascii) (t : string) :
  contains c (String a t) = Ascii.eqb c a || contains c t.
Proof. reflexivity. Qed.

Lemma contains_join (c sep : ascii) (l : list string) :
  c <> sep -> Forall (fun x => contains c x = false) l ->
  contains c (join (String sep EmptyString) l) = false.
Proof.
  intros Hne. induction l as [|x l IH]; [done|]. intros [Hx Hl]%Forall_cons.
  destruct l as [|y l]; [done|].
  rewrite join_cons2, contains_app, Hx, contains_cons, (IH Hl), orb_false_r.
  simpl. by apply Ascii.eqb_neq.
Qed.

Lemma tsv_row_clean (r : Row) :
  List.length (Cli.tsv_row r) = 3%nat /\
  Forall (fun x => contains "009" x = false) (Cli.tsv_row r) /\
  Forall (fun x => contains "010" x = false) (Cli.tsv_row r).
Proof.
  unfold Cli.tsv_row, Cli.RAW_HEADERS. cbn [fmap list_fmap].
  split; [done|]. split; repeat constructor; apply tsv_field_clean.
Qed.

Lemma tsv_lines_split (raw : list Row) :
  split "010" (Cli.tsv_lines raw) =
    ((fun r => join (String "009" EmptyString) (Cli.tsv_row r)) <$> raw)
      ++ [EmptyString].
Proof.
  induction raw as [|r raw IH]; [done|].
  cbn [Cli.tsv_lines fmap list_fmap]. unfold Cli.tsv_line.
  rewrite append_assoc. change (String "010" "" +:+ Cli.tsv_lines raw)
    with (String "010" (Cli.tsv_lines raw)).
  rewrite split_app_sep, IH; [done|].
  apply contains_join; [discriminate|]. apply tsv_row_clean.
Qed.

(** X8. The raw TSV text reads back as a table. Split at line feeds it
    gives the header line, one line per raw row in order, and an empty
    rest after the last line feed; each row line, split at tabs, gives
    exactly the three cleaned fields of its row, which hold neither tab
    nor line feed; and a field that has no tab or line feed and nothing
    to strip is written as it is, a null one as the empty text. *)
Theorem raw_tsv_reads_back (raw : list Row) :
  split "010" (Cli.tsv_header +:+ Cli.tsv_lines raw) =
    join (String "009" EmptyString) Cli.RAW_HEADERS
      :: ((fun r => join (String "009" EmptyString) (Cli.tsv_row r)) <$> raw)
      ++ [EmptyString] /\
  (forall r,
     split "009" (join (String "009" EmptyString) (Cli.tsv_row r)) =
       [Cli.tsv_field (tax_list_entity_title r);
        Cli.tsv_field (tax_list_file r);
        Cli.tsv_field (tax_list_file_href r)]) /\
  (forall x, contains "009" (Cli.tsv_field x) = false /\
             contains "010" (Cli.tsv_field x) = false) /\
  (forall s, contains "009" s = false -> contains "010" s = false ->
     py_strip s = s -> Cli.tsv_field (Some s) = s) /\
  Cli.tsv_field None = EmptyString.
Proof.
  split; [|split; [|split; [|split]]].
  - unfold Cli.tsv_header. rewrite append_assoc.
    change (String "010" "" +:+ Cli.tsv_lines raw)
      with (String "010" (Cli.tsv_lines raw)).
    rewrite split_app_sep, tsv_lines_split; [done|]. reflexivity.
  - intros r. rewrite split_join; [done|done|apply tsv_row_clean].
  - apply tsv_field_clean.
  - intros s Ht Hn Hs. unfold Cli.tsv_field. cbn [Engine.or_str].
    assert (Hrep : forall a b t, contains a t = false -> replace_char a b t = t).
    { intros a b t. unfold contains. induction t as [|c t IH]; simpl; [done|].
      rewrite (Ascii.eqb_sym a c). intros [Hc Hrest]%orb_false_elim.
      by rewrite Hc, (IH Hrest). }
    by rewrite (Hrep "009"%char), (Hrep "010"%char).
  - reflexivity.
Qed.

End Tsv.

Lemma raw_tsv_reads_back_witness :
  Cli.tsv_field (Some "Smith County") = "Smith County" /\
  Cli.tsv_field (Some (String "009" "Smith" +:+ String "010" "County "))
    = "Smith County".
Proof.
  destruct (raw_tsv_reads_back []) as (_ & _ & _ & Hsame & _).
  split; [apply Hsame; reflexivity|reflexivity].
Defined.

(** ** Relative links *)

Section Relative.
Import Str Urllib Engine.
Variable ok : string -> bool.

Lemma find_app_absent (c : ascii) (a t : string) :
  contains c a = false ->
  find c (a +:+ t) = (fun i => String.length a + i)%nat <$> find c t.
Proof.
  unfold contains. induction a as [|x a IH].
  - intros _. rewrite append_nil_l. destruct (find c t); reflexivity.
  - cbn [exists_chars]. rewrite (Ascii.eqb_sym c x).
    intros [Hx Ha]%orb_false_elim.
    rewrite append_cons. cbn [find]. rewrite Hx, (IH Ha).
    destruct (find c t); reflexivity.
Qed.

Lemma splitnetloc_host (t : string) :
  _splitnetloc ("//www.pbfcm.com/" +:+ t) 2 = ("www.pbfcm.com", "/" +:+ t).
Proof.
  unfold _splitnetloc. cbn [fold_left]. unfold find_from.
  change (drop 2 ("//www.pbfcm.com/" +:+ t))
    with ("www.pbfcm.com" +:+ String "/" t).
  rewrite (find_app_fresh "/" "www.pbfcm.com" t eq_refl).
  change ("www.pbfcm.com" +:+ String "/" t) with ("www.pbfcm.com/" +:+ t).
  rewrite !(find_app_absent _ "www.pbfcm.com/" t) by reflexivity.
  change (String.length ("//www.pbfcm.com/" +:+ t))
    with (16 + String.length t)%nat.
  change (String.length "www.pbfcm.com") with 13%nat.
  change (String.length "www.pbfcm.com/") with 14%nat.
  destruct (find "?" t) as [i|], (find "#" t) as [j|];
    cbn [fmap option_fmap option_map];
    match goal with
    | |- (take (?d - 2) _, drop ?d _) = _ => replace d with 15%nat by lia
    end; reflexivity.
Qed.
Lemma split_netloc_host (t : string) :
  split_netloc ok ("//www.pbfcm.com/" +:+ t) = Ok ("www.pbfcm.com", "/" +:+ t).
Proof.
  unfold split_netloc.
  change (startswith "//" ("//www.pbfcm.com/" +:+ t)) with true.
  rewrite splitnetloc_host. reflexivity.
Qed.

Lemma split1_keeps_head (c a : ascii) (s : string) :
  Ascii.eqb a c = false -> exists l, (split1 c (String a s)).1 = String a l.
Proof.
  intros Hac. simpl. rewrite Hac. destruct (split1 c s) as [l r]. eauto.
Qed.

Lemma split_fragment_query_head (sc n t : string) :
  exists l, s_path (split_fragment_query sc n (String "/" t)) = String "/" l.
Proof.
  unfold split_fragment_query.
  assert (Hf : exists l f,
    (if contains "#" (String "/" t) then split1 "#" (String "/" t)
     else (String "/" t, EmptyString)) = (String "/" l, f)).
  { destruct (contains "#" (String "/" t)); [|eauto].
    destruct (split1_keeps_head "#" "/" t eq_refl) as [l Hl].
    destruct (split1 "#" (String "/" t)) as [u f]. simpl in Hl. subst u. eauto. }
  destruct Hf as (l & f & ->).
  destruct (contains "?" (String "/" l)); [|simpl; eauto].
  destruct (split1_keeps_head "?" "/" l eq_refl) as [l' Hl'].
  destruct (split1 "?" (String "/" l)) as [u q]. simpl in Hl'. subst u.
  simpl. eauto.
Qed.

Lemma splitparams_head (s : string) :
  exists l, (_splitparams (String "/" s)).1 = String "/" l.
Proof.
  unfold _splitparams. change (contains "/" (String "/" s)) with true.
  cbn [rfind]. change (Ascii.eqb "/" "/") with true.
  destruct (rfind "/" s) as [r|].
  - unfold find_from. cbn [drop].
    destruct (find ";" (drop r s)) as [k|]; simpl; eauto.
  - unfold find_from. cbn [drop find].
    change (Ascii.eqb "/" ";") with false.
    destruct (find ";" s) as [k|]; simpl; eauto.
Qed.

(** A URL on the source host parses, whatever follows the host. *)
Lemma urlparse_on_host (t d : string) :
  exists p, urlparse ok ("https://www.pbfcm.com/" +:+ t) d = Ok p /\
    scheme p = "https" /\ netloc p = "www.pbfcm.com" /\
    nonempty (path p) = true.
Proof.
  unfold urlparse, urlsplit.
  assert (Hclean : clean_url ("https://www.pbfcm.com/" +:+ t)
                   = "https" +:+ String ":" ("//www.pbfcm.com/" +:+ remove_unsafe t)).
  { change ("https://www.pbfcm.com/" +:+ t)
      with ("https" +:+ String ":" ("//www.pbfcm.com/" +:+ t)).
    rewrite (clean_url_scheme _ _ valid_scheme_https). reflexivity. }
  rewrite Hclean, (explicit_scheme_intro _ _ valid_scheme_https).
  rewrite split_netloc_host. cbn [mbind result_bind].
  change ("/" +:+ remove_unsafe t) with (String "/" (remove_unsafe t)).
  destruct (split_fragment_query_head "https" "www.pbfcm.com" (remove_unsafe t))
    as [l Hl].
  pose proof (split_fragment_query_parts "https" "www.pbfcm.com"
                (String "/" (remove_unsafe t))) as (Hs & Hn & _).
  destruct (split_fragment_query _ _ _) as [sc n pa q f].
  simpl in Hl, Hs, Hn. subst sc n pa. cbn [s_scheme s_netloc s_path s_query s_fragment].
  destruct (in_list "https" uses_params && contains ";" (String "/" l)).
  - destruct (splitparams_head l) as [l' Hl'].
    destruct (_splitparams (String "/" l)) as [u pr]. simpl in Hl'. subst u.
    eexists. split; [reflexivity|]. done.
  - eexists. split; [reflexivity|]. done.
Qed.

Lemma urlunparse_on_host (p : ParseResult) :
  scheme p = "https" -> netloc p = "www.pbfcm.com" ->
  nonempty (path p) = true ->
  exists t, urlunparse p = "https://www.pbfcm.com/" +:+ t.
Proof.
  destruct p as [sc n pa pr q f]. simpl. intros -> -> Hpa.
  unfold urlunparse, urlunsplit.
  cbn [scheme netloc path params query fragment
       s_scheme s_netloc s_path s_query s_fragment].
  set (url := if nonempty pr then pa +:+ ";" +:+ pr else pa).
  assert (Hurl : nonempty url = true).
  { unfold url. destruct (nonempty pr); [|done].
    destruct pa; [discriminate|done]. }
  change (nonempty "www.pbfcm.com") with true. cbn [orb].
  change (nonempty "https") with true. rewrite Hurl. cbn [andb].
  assert (Hhead : exists x,
    (if negb (String.eqb (take 1 url) "/") then "/" +:+ url else url)
      = String "/" x).
  { destruct (String.eqb (take 1 url) "/") eqn:Ht; simpl; [|eauto].
    apply String.eqb_eq in Ht. apply take_eq_startswith in Ht.
    apply startswith_split in Ht. simpl in Ht. eauto. }
  destruct Hhead as [x ->].
  change ("https" +:+ ":" +:+ "//" +:+ "www.pbfcm.com" +:+ String "/" x)
    with ("https://www.pbfcm.com/" +:+ x).
  destruct (nonempty q), (nonempty f); rewrite ?append_assoc; eauto.
Qed.

Lemma urlparse_relative (h d : string) :
  is_relative h = true ->
  exists u, urlparse ok h d = Ok u /\
    scheme u = remove_unsafe (strip_by c0_control_or_space d) /\
    netloc u = EmptyString.
Proof.
  unfold is_relative, has_scheme.
  destruct (explicit_scheme (clean_url h)) as [sr|] eqn:He; [discriminate|].
  simpl. intros Hn%negb_true_iff.
  unfold urlparse, urlsplit. rewrite He.
  unfold split_netloc. rewrite Hn. cbn [mbind result_bind].
  pose proof (split_fragment_query_parts
                (remove_unsafe (strip_by c0_control_or_space d)) EmptyString
                (clean_url h)) as (Hs & Hnet & _).
  destruct (split_fragment_query _ _ _) as [sc n pa q f].
  simpl in Hs, Hnet. subst sc n.
  cbn [s_scheme s_netloc s_path s_query s_fragment].
  destruct (_ && _); [destruct (_splitparams pa)|];
    eexists; (split; [reflexivity|done]).
Qed.

Lemma urljoin_relative (h : string) :
  nonempty h = true -> is_relative h = true ->
  exists t, urljoin ok PBF_URL h = Ok ("https://www.pbfcm.com/" +:+ t).
Proof.
  intros Hh Hrel. unfold urljoin. change (nonempty PBF_URL) with true.
  rewrite Hh. cbn [negb]. rewrite urlparse_PBF_URL. cbn [mbind result_bind].
  cbn [scheme netloc path params query fragment].
  destruct (urlparse_relative h "https" Hrel) as (u & -> & Hs & Hn).
  cbn [mbind result_bind]. change (remove_unsafe _) with "https" in Hs.
  rewrite Hs, Hn. change (String.eqb "https" "https") with true.
  change (in_list "https" uses_relative) with true.
  change (in_list "https" uses_netloc) with true.
  cbn [negb orb andb nonempty].
  destruct (negb (nonempty (path u)) && negb (nonempty (params u))).
  - match goal with
    | |- context [urlunparse ?p] =>
        destruct (urlunparse_on_host p eq_refl eq_refl eq_refl) as [t ->]
    end. eauto.
  - match goal with
    | |- context [urlunparse ?p] =>
        destruct (urlunparse_on_host p eq_refl eq_refl) as [t ->]
    end; [|eauto].
    cbn [path].
    match goal with
    | |- nonempty (if ?b then _ else _) = true =>
        destruct b eqn:Hj; [exact Hj|reflexivity]
    end.
Qed.

Lemma urldefrag_on_host (t : string) :
  exists t', urldefrag ok ("https://www.pbfcm.com/" +:+ t)
             = Ok ("https://www.pbfcm.com/" +:+ t').
Proof.
  unfold urldefrag. destruct (contains "#" _); [|eauto].
  destruct (urlparse_on_host t EmptyString) as (p & -> & Hs & Hn & Hp).
  cbn [mbind result_bind].
  match goal with
  | |- context [urlunparse ?q] =>
      destruct (urlunparse_on_host q Hs Hn Hp) as [t' ->]
  end. eauto.
Qed.

(** X9. A non-empty href that names no scheme and no host of its own
    always resolves, without an exception, to a URL under
    [https://www.pbfcm.com/] that holds no fragment and that [urlparse]
    and [_file_type] accept. *)
Theorem relative_href_stays_on_host (h : string) :
  h <> EmptyString -> is_relative h = true ->
  exists c,
    canonical_url ok h = Ok c /\
    startswith "https://www.pbfcm.com/" c = true /\
    contains "#" c = false /\
    (exists p, urlparse ok c EmptyString = Ok p /\
               netloc p = "www.pbfcm.com") /\
    (exists ft, _file_type ok (Some c) = Ok ft).
Proof.
  intros Hne%nonempty_true Hrel.
  destruct (urljoin_relative h Hne Hrel) as [t Hj].
  destruct (urldefrag_on_host t) as [t' Hc].
  exists ("https://www.pbfcm.com/" +:+ t').
  assert (Hcanon : canonical_url ok h = Ok ("https://www.pbfcm.com/" +:+ t'))
    by (unfold canonical_url; by rewrite Hj).
  destruct (urlparse_on_host t' EmptyString) as (p & Hp & _ & Hn & _).
  split; [done|]. split; [apply startswith_self_app|].
  split; [by apply (urldefrag_no_fragment ok _ _ Hc)|].
  split; [eauto|].
  eexists. by rewrite (file_type_of_path ok _ p Hp).
Qed.

End Relative.

Lemma relative_href_stays_on_host_witness :
  exists c,
    Engine.canonical_url Pages.no_brackets "../docs/./notice.pdf;v=2?x#top"
      = Ok c /\
    c = "https://www.pbfcm.com/docs/notice.pdf;v=2?x".
Proof.
  destruct (relative_href_stays_on_host Pages.no_brackets
              "../docs/./notice.pdf;v=2?x#top") as (c & Hc & _).
  - discriminate.
  - reflexivity.
  - exists c. split; [exact Hc|]. vm_compute in Hc. congruence.
Defined.

(** ** When [scrape] returns *)

Lemma mapM_total {A B : Type} (f : A -> result B) (Q : B -> Prop) (l : list A) :
  (forall x, x ∈ l -> exists y, f x = Ok y /\ Q y) ->
  exists l', mapM f l = Ok l' /\ Forall Q l'.
Proof.
  induction l as [|a l IH]; intros Hall; simpl.
  - exists []. by split.
  - destruct (Hall a) as (b & -> & Hb); [left|].
    destruct IH as (bs & -> & Hbs); [intros x Hx; apply Hall; by right|].
    exists (b :: bs). split; [done|]. by constructor.
Qed.

Section Returns.
Import Str Urllib Engine.
Variable ok : string -> bool.

Lemma absolutize_relative (r : Row) :
  (forall h, tax_list_file_href r = Some h -> h <> EmptyString ->
     is_relative h = true) ->
  exists r', absolutize ok r = Ok r' /\
    forall u, tax_list_file_href r' = Some u -> u <> EmptyString ->
      startswith "https://www.pbfcm.com/" u = true.
Proof.
  intros Hrel. unfold absolutize.
  destruct (tax_list_file_href r) as [[|a h]|] eqn:Hh.
  - exists r. split; [done|]. intros u Hu. congruence.
  - destruct (relative_href_stays_on_host ok (String a h))
      as (c & -> & Hc & _); [done|by apply Hrel|].
    cbn [nonempty mbind result_bind]. eexists. split; [done|].
    simpl. intros u [= <-] _. exact Hc.
  - exists r. split; [done|]. intros u Hu. congruence.
Qed.

Lemma normalize_on_host (r : Row) :
  (forall u, tax_list_file_href r = Some u -> u <> EmptyString ->
     startswith "https://www.pbfcm.com/" u = true) ->
  exists n, _normalize ok r = Ok n /\
    forall u, file_url n = Some u ->
      startswith "https://www.pbfcm.com/" u = true.
Proof.
  intros Hhost. unfold _normalize.
  destruct (tax_list_file_href r) as [[|a h]|] eqn:Hh; cbn [or_None nonempty].
  - eexists. split; [reflexivity|]. discriminate.
  - specialize (Hhost (String a h) eq_refl ltac:(discriminate)).
    rewrite (startswith_split _ _ Hhost).
    match goal with
    | |- context [_file_type ok (Some ("https://www.pbfcm.com/" +:+ ?t))] =>
        destruct (urlparse_on_host ok t EmptyString) as (p & Hp & _);
        rewrite (file_type_of_path ok _ p Hp)
    end.
    eexists. split; [reflexivity|]. simpl. intros u [= <-].
    apply startswith_self_app.
  - eexists. split; [reflexivity|]. discriminate.
Qed.

(** X10. When every href the page script found is null, empty or
    relative (no scheme and no host of its own), [scrape] returns a
    result: neither [urljoin], [urldefrag] nor [urlparse] raises, and
    every [file_url] of the result lies under [https://www.pbfcm.com/]. *)
Theorem scrape_returns_on_relative_links {Node : Type} `{Js.Dom Node}
    (s : Scraper) :
  (forall r h, r ∈ Js.script -> tax_list_file_href r = Some h ->
     h <> EmptyString -> is_relative h = true) ->
  exists res s',
    scrape ok s = (Ok res, s') /\
    (count res <= List.length Js.script)%nat /\
    forall n u, n ∈ normalized res -> file_url n = Some u ->
      startswith "https://www.pbfcm.com/" u = true.
Proof.
  intros Hrel.
  destruct (mapM_total (absolutize ok)
              (fun r' => forall u, tax_list_file_href r' = Some u ->
                 u <> EmptyString ->
                 startswith "https://www.pbfcm.com/" u = true) Js.script)
    as (canon & Hcanon & Hhost).
  { intros r Hr. apply absolutize_relative. intros h. by apply Hrel. }
  pose proof (clean_rows_keep_unseen ok Js.script) as Hclean.
  rewrite Hcanon in Hclean. cbn [mbind result_bind] in Hclean.
  destruct (mapM_total (_normalize ok)
              (fun n => forall u, file_url n = Some u ->
                 startswith "https://www.pbfcm.com/" u = true)
              (keep_unseen ∅ canon)) as (norm & Hnorm & Hurls).
  { intros r Hr. apply normalize_on_host.
    destruct (keep_unseen_not_seen _ _ _ Hr) as [_ Hin].
    rewrite Forall_forall in Hhost. by apply Hhost. }
  destruct (start_started s) as [b Hb].
  unfold scrape, _extract_js. rewrite Hb, Hclean, Hnorm.
  eexists _, _. split; [reflexivity|]. cbn [count normalized]. split.
  - destruct (mapM_Ok _ _ _ Hcanon) as [<- _].
    apply sublist_length, keep_unseen_sublist.
  - intros n u Hn. rewrite Forall_forall in Hurls. by apply Hurls.
Qed.

End Returns.

Lemma scrape_returns_on_relative_links_witness :
  exists res s',
    @Engine.scrape Pages.no_brackets nat Pages.smith_page Pages.new_scraper
      = (Ok res, s') /\
    (count res <= 1)%nat.
Proof.
  destruct (@scrape_returns_on_relative_links Pages.no_brackets nat
              Pages.smith_page Pages.new_scraper)
    as (res & s' & Hs & Hcount & _).
  - intros r h Hr Hh _. vm_compute in Hr.
    apply list_elem_of_In in Hr. destruct Hr as [<-|[]].
    injection Hh as <-. reflexivity.
  - exists res, s'. split; [exact Hs|exact Hcount].
Defined.
